(** * Sarcasm detection: dataset adapter, training and evaluation loops,
      checkpoint policy of [Code/Bertcls.py].

    The script is embedded shallowly.  Python exceptions are a sum type,
    the objects the loops mutate (model, optimizer, torch's random
    generator) are an explicit state that survives an exception, and the
    external collaborators (tokenizer, JSON parser, encoder, autodiff,
    optimizer, storage) are section variables.  Python floats that hold a
    loss or an accuracy are exact rationals. *)

From Stdlib Require Import List ZArith QArith String Bool Arith Lia Permutation.
Import ListNotations.

Set Warnings "-register-all".

Local Open Scope string_scope.
Local Open Scope list_scope.

(** ** Python values, exceptions and the two effects of the script *)

Module Py.

Inductive exn : Type :=
  | JSONDecodeError
  | KeyError (key : string)
  | TypeError
  | IndexError
  | ZeroDivisionError
  | FileNotFoundError
  | OSError
  | RuntimeError
  | StorageError.

(** The floats that are no numbers of the JSON grammar. *)
Inductive special_float : Type := NaN | PosInfinity | NegInfinity.

(** What [json.loads] builds.  A dict is its list of items, keys unique
    (the parser keeps the last of two equal keys).  The decoder also takes
    the literals [NaN], [Infinity] and [-Infinity], which are not JSON. *)
Inductive value : Type :=
  | VNone
  | VBool (b : bool)
  | VInt (z : Z)
  | VFloat (q : Q)
  | VSpecial (f : special_float)
  | VStr (s : string)
  | VList (l : list value)
  | VDict (items : list (string * value)).

Definition result (A : Type) : Type := (exn + A)%type.

Definition ok {A} (a : A) : result A := inr a.
Definition raise {A} (e : exn) : result A := inl e.

Definition rbind {A B} (r : result A) (k : A -> result B) : result B :=
    match r with
    | inl e => inl e
    | inr a => k a
    end.

(** A computation over a mutable store [S]: the store is kept when an
    exception escapes, as the Python objects are. *)
Definition M (S A : Type) : Type := S -> result A * S.

Definition ret {S A} (a : A) : M S A := fun s => (inr a, s).
Definition throw {S A} (e : exn) : M S A := fun s => (inl e, s).
Definition bind {S A B} (m : M S A) (k : A -> M S B) : M S B :=
    fun s => match m s with
             | (inl e, s') => (inl e, s')
             | (inr a, s') => k a s'
             end.
Definition gets {S A} (f : S -> A) : M S A := fun s => (inr (f s), s).
Definition modify {S} (f : S -> S) : M S unit := fun s => (inr tt, f s).
Definition lift_result {S A} (r : result A) : M S A := fun s => (r, s).

(** [d[key]] for a string key. *)
Fixpoint lookup (key : string) (items : list (string * value)) : option value :=
    match items with
    | [] => None
    | (k, v) :: rest => if String.eqb k key then Some v else lookup key rest
    end.

Definition subscript (v : value) (key : string) : result value :=
    match v with
    | VDict items =>
        match lookup key items with
        | Some x => ok x
        | None => raise (KeyError key)
        end
    | _ => raise TypeError
    end.

(** [l[idx]] on a list, negative indices counting from the end. *)
Definition list_index {A} (l : list A) (idx : Z) : result A :=
    let n := Z.of_nat (List.length l) in
    let i := if (idx <? 0)%Z then (idx + n)%Z else idx in
    if ((0 <=? i)%Z && (i <? n)%Z)%bool
    then match nth_error l (Z.to_nat i) with
         | Some a => ok a
         | None => raise IndexError
         end
    else raise IndexError.

(** [x / n] with [n] the result of a [len]. *)
Definition truediv (x : Q) (n : nat) : result Q :=
    match n with
    | O => raise ZeroDivisionError
    | S _ => ok (x / inject_Z (Z.of_nat n))
    end.

End Py.

Declare Scope py_scope.
Delimit Scope py_scope with py.
Notation "x <- m ;; k" := (Py.bind m (fun x => k))
  (at level 61, m at next level, right associativity) : py_scope.
Notation "m ;;; k" := (Py.bind m (fun _ => k))
  (at level 61, right associativity) : py_scope.
Notation "x <-? r ;; k" := (Py.rbind r (fun x => k))
  (at level 61, r at next level, right associativity) : py_scope.

(** ** Tensors as the script sees them *)

(** A rank-2 integer tensor is the list of its rows. *)
Definition flatten (t : list (list Z)) : list Z := List.concat t.

Definition int64_min : Z := (- 2 ^ 63)%Z.
Definition int64_max : Z := (2 ^ 63 - 1)%Z.

(** [torch.tensor(label, dtype=torch.long)] on a scalar: an integer, a
    bool, or a float, which is cut towards zero; a value that does not fit
    64 bits is refused, and so are the floats that are no numbers.  Only
    rank-0 labels are modelled: a list, which torch would turn into a
    tensor of higher rank, is refused here with the other values. *)
Definition torch_tensor_long (label : Py.value) : Py.result Z :=
  match label with
  | Py.VInt z =>
      if ((int64_min <=? z)%Z && (z <=? int64_max)%Z)%bool
      then Py.ok z else Py.raise Py.RuntimeError
  | Py.VBool b => Py.ok (if b then 1%Z else 0%Z)
  | Py.VFloat q =>
      let z := Z.quot (Qnum q) (Zpos (Qden q)) in
      if ((int64_min <=? z)%Z && (z <=? int64_max)%Z)%bool
      then Py.ok z else Py.raise Py.RuntimeError
  | Py.VSpecial _ => Py.raise Py.RuntimeError
  | _ => Py.raise Py.TypeError
  end.

(** ** The dataset adapter *)

Inductive padding_strategy : Type := PadNone | PadLongest | PadMaxLength.

(** The keyword arguments [__getitem__] passes to [encode_plus]. *)
Record encode_args : Type := mkEncodeArgs {
  add_special_tokens : bool;
  arg_max_length : nat;
  padding : padding_strategy;
  truncation : bool;
  return_attention_mask : bool
}.

(** A resolved tokenizer: [encode_plus] with [return_tensors='pt'] gives
    the two rank-2 tensors [input_ids] and [attention_mask]. *)
Record Tokenizer : Type := mkTokenizer {
  encode_plus : Py.value -> encode_args -> Py.result (list (list Z) * list (list Z))
}.

Record SarcasmDataset : Type := mkDataset {
  data : list (Py.value * Py.value);
  tokenizer : Tokenizer;
  max_length : nat
}.

Record Encoded : Type := mkEncoded {
  input_ids : list Z;
  attention_mask : list Z;
  labels : Z
}.

Local Open Scope py_scope.

(** What the constructor reaches outside the script. *)
Class Environment : Type := {
  (** [AutoTokenizer.from_pretrained]: [None] when the identifier cannot
      be resolved. *)
  from_pretrained : string -> option Tokenizer;
  (** [json.loads]: [None] when the decoder raises.  It takes every JSON
      text, and the literals [NaN], [Infinity] and [-Infinity] too. *)
  json_loads : string -> option Py.value;
  (** The files that can be opened, as their lines. *)
  file_system : string -> option (list string)
}.

(** The body of [for line in file]. *)
Fixpoint read_lines `{E : Environment} (lines : list string)
    (acc : list (Py.value * Py.value)) : Py.result (list (Py.value * Py.value)) :=
  match lines with
  | [] => Py.ok acc
  | line :: rest =>
      entry <-? match json_loads line with
                | Some v => Py.ok v
                | None => Py.raise Py.JSONDecodeError
                end ;;
      headline <-? Py.subscript entry "headline" ;;
      is_sarcastic <-? Py.subscript entry "is_sarcastic" ;;
      read_lines rest (acc ++ [(headline, is_sarcastic)])
  end.

(** [SarcasmDataset.__init__] *)
Definition SarcasmDataset_init `{E : Environment}
    (json_file tokenizer_name : string) (max_len : nat) : Py.result SarcasmDataset :=
  tok <-? match from_pretrained tokenizer_name with
          | Some t => Py.ok t
          | None => Py.raise Py.OSError
          end ;;
  lines <-? match file_system json_file with
            | Some ls => Py.ok ls
            | None => Py.raise Py.FileNotFoundError
            end ;;
  d <-? read_lines lines [] ;;
  Py.ok (mkDataset d tok max_len).

(** [SarcasmDataset.__len__] *)
Definition SarcasmDataset_len (ds : SarcasmDataset) : nat := List.length (data ds).

(** [SarcasmDataset.__getitem__] *)
Definition SarcasmDataset_getitem (ds : SarcasmDataset) (idx : Z) : Py.result Encoded :=
  entry <-? Py.list_index (data ds) idx ;;
  let '(text, label) := entry in
  encoded_text <-? encode_plus (tokenizer ds) text
                     (mkEncodeArgs true (max_length ds) PadMaxLength true true) ;;
  let '(ids, mask) := encoded_text in
  lab <-? torch_tensor_long label ;;
  Py.ok (mkEncoded (flatten ids) (flatten mask) lab).

(** ** The BERT tokenizer, as the adapter calls it *)

(** [encode_plus] of the tokenizer that [bert-base-uncased] resolves to,
    from the library's behaviour; [tokenize] gives the word-piece ids of a
    text.  With special tokens the ids are framed by [CLS] (101) and
    [SEP] (102).  Truncation cuts the text to what the window leaves
    beside the special tokens; a window smaller than the special tokens
    alone cuts nothing.  Padding to the window adds zeros; the mask has a
    one for each token and a zero for each pad. *)
Definition bert_encode_plus (tokenize : string -> list Z) (text : Py.value)
    (args : encode_args) : Py.result (list (list Z) * list (list Z)) :=
  match text with
  | Py.VStr s =>
      let n := arg_max_length args in
      let special := if add_special_tokens args then 2%nat else 0%nat in
      let toks := if (truncation args && Nat.leb special n)%bool
                  then firstn (n - special) (tokenize s) else tokenize s in
      let ids := if add_special_tokens args
                 then (101 :: toks ++ [102])%Z else toks in
      let pad := match padding args with
                 | PadMaxLength => (n - List.length ids)%nat
                 | _ => 0%nat
                 end in
      Py.ok ([ids ++ repeat 0%Z pad],
             [repeat 1%Z (List.length ids) ++ repeat 0%Z pad])
  | _ => Py.raise Py.TypeError
  end.

Definition bert_tokenizer (tokenize : string -> list Z) : Tokenizer :=
  mkTokenizer (bert_encode_plus tokenize).

(** ** The batch loader *)

Record Batch : Type := mkBatch {
  batch_input_ids : list (list Z);
  batch_attention_mask : list (list Z);
  batch_labels : list Z
}.

(** [DataLoader(dataset, batch_size=..., shuffle=...)].  The constructor
    takes a positive batch size, and shuffles non-empty datasets only. *)
Record DataLoader : Type := mkDataLoader {
  dataset : SarcasmDataset;
  batch_size : nat;
  shuffle : bool
}.

(** [torch.stack] of rank-1 tensors: all of one size. *)
Definition stack (rows : list (list Z)) : Py.result (list (list Z)) :=
  match rows with
  | [] => Py.ok []
  | r :: rest =>
      if forallb (fun x => Nat.eqb (List.length x) (List.length r)) rest
      then Py.ok rows else Py.raise Py.RuntimeError
  end.

(** The default collate function on a list of encoded examples. *)
Definition collate (examples : list Encoded) : Py.result Batch :=
  ids <-? stack (map input_ids examples) ;;
  mask <-? stack (map attention_mask examples) ;;
  Py.ok (mkBatch ids mask (map labels examples)).

(** [[dataset[i] for i in indices]], stopping at the first exception. *)
Fixpoint fetch_examples (ds : SarcasmDataset) (indices : list nat)
    : Py.result (list Encoded) :=
  match indices with
  | [] => Py.ok []
  | i :: rest =>
      e <-? SarcasmDataset_getitem ds (Z.of_nat i) ;;
      es <-? fetch_examples ds rest ;;
      Py.ok (e :: es)
  end.

Definition fetch (ds : SarcasmDataset) (indices : list nat) : Py.result Batch :=
  examples <-? fetch_examples ds indices ;;
  collate examples.

(** The batch sampler: indices are appended to [batch]; a full batch is
    yielded and a new one started; what is left at the end is yielded when
    not empty ([drop_last] is off). *)
Fixpoint batch_sampler (size : nat) (sampler : list nat) (batch : list nat)
    : list (list nat) :=
  match sampler with
  | [] => if Nat.ltb 0 (List.length batch) then [batch] else []
  | idx :: rest =>
      let batch' := batch ++ [idx] in
      if Nat.eqb (List.length batch') size
      then batch' :: batch_sampler size rest []
      else batch_sampler size rest batch'
  end.

(** [len(dataloader)] *)
Definition DataLoader_len (dl : DataLoader) : nat :=
  (SarcasmDataset_len (dataset dl) + batch_size dl - 1) / batch_size dl.

(** The batches of one pass over the index order [order]; each is fetched
    when the loop asks for it, so each carries its own outcome. *)
Definition DataLoader_batches (dl : DataLoader) (order : list nat)
    : list (Py.result Batch) :=
  map (fetch (dataset dl)) (batch_sampler (batch_size dl) order []).

(** ** The model, the optimizer and torch, as the loops use them *)

Class Torch : Type := {
  Params : Type;
  OptState : Type;
  Grad : Type;
  Rng : Type;
  Mask : Type;
  (** [model(input_ids, attention_mask)]: the head on the parameters,
      under a dropout mask in training mode, without one in evaluation
      mode. *)
  forward : Params -> option Mask -> list (list Z) -> list (list Z) -> list (list Q);
  (** [nn.CrossEntropyLoss()] with [.item()] *)
  criterion : list (list Q) -> list Z -> Q;
  (** The gradient [loss.backward()] computes for one forward pass. *)
  gradient : Params -> option Mask -> Batch -> Grad;
  grad_add : Grad -> Grad -> Grad;
  (** One [AdamW] update. *)
  adamw : OptState -> Params -> Grad -> OptState * Params;
  (** One step of the linear schedule, on the optimizer's learning rate. *)
  schedule : OptState -> OptState;
  (** [torch.randperm(n)], on the global generator. *)
  randperm : Rng -> nat -> list nat * Rng;
  (** The mask the dropout layers draw for one forward pass. *)
  draw_mask : Rng -> Mask * Rng
}.

(** Ghost record of what the loops did to the model and the optimizer. *)
Inductive Event : Type :=
| EvZeroGrad
| EvForward (training_mode : bool) (b : Batch)
| EvBackward
| EvStep.

(** The objects [train] and [evaluate] reach: the model (parameters,
    mode, accumulated gradients), the optimizer, the generator. *)
Record Runtime `{Torch} : Type := mkRuntime {
  params : Params;
  training : bool;
  grads : option Grad;
  opt_state : OptState;
  rng : Rng;
  trace : list Event
}.

Arguments mkRuntime {_} _ _ _ _ _ _.

Section Loops.

Context `{T : Torch}.

Definition log (e : Event) : Py.M Runtime unit :=
  Py.modify (fun r => mkRuntime (params r) (training r) (grads r) (opt_state r)
                        (rng r) (trace r ++ [e])).

(** [model.train()] and [model.eval()] *)
Definition set_mode (mode : bool) : Py.M Runtime unit :=
  Py.modify (fun r => mkRuntime (params r) mode (grads r) (opt_state r)
                        (rng r) (trace r)).

(** [optimizer.zero_grad()] *)
Definition zero_grad : Py.M Runtime unit :=
  Py.modify (fun r => mkRuntime (params r) (training r) None (opt_state r)
                        (rng r) (trace r)) ;;;
  log EvZeroGrad.

(** [model(input_ids, attention_mask)]: returns the logits and the mask
    of this pass. *)
Definition call_model (b : Batch) : Py.M Runtime (list (list Q) * option Mask) :=
  mode <- Py.gets training ;;
  mask <- (if mode
           then fun r => let (m, g) := draw_mask (rng r) in
                         (inr (Some m),
                          mkRuntime (params r) (training r) (grads r) (opt_state r)
                            g (trace r))
           else Py.ret None) ;;
  p <- Py.gets params ;;
  log (EvForward mode b) ;;;
  Py.ret (forward p mask (batch_input_ids b) (batch_attention_mask b), mask).

(** [loss.backward()]: adds this pass's gradient to the accumulated one. *)
Definition backward (mask : option Mask) (b : Batch) : Py.M Runtime unit :=
  Py.modify (fun r =>
    let g := gradient (params r) mask b in
    mkRuntime (params r) (training r)
      (Some (match grads r with
             | None => g
             | Some g0 => grad_add g0 g
             end))
      (opt_state r) (rng r) (trace r)) ;;;
  log EvBackward.

(** [optimizer.step()]: parameters without a gradient are left alone. *)
Definition optimizer_step : Py.M Runtime unit :=
  Py.modify (fun r =>
    match grads r with
    | None => r
    | Some g =>
        let (o, p) := adamw (opt_state r) (params r) g in
        mkRuntime p (training r) (grads r) o (rng r) (trace r)
    end) ;;;
  log EvStep.

(** [scheduler.step()] *)
Definition scheduler_step : Py.M Runtime unit :=
  Py.modify (fun r => mkRuntime (params r) (training r) (grads r)
                        (schedule (opt_state r)) (rng r) (trace r)).

(** [iter(dataloader)]: a shuffling loader draws its order first. *)
Definition DataLoader_iter (dl : DataLoader) : Py.M Runtime (list (Py.result Batch)) :=
  let n := SarcasmDataset_len (dataset dl) in
  order <- (if shuffle dl
            then fun r => let (p, g) := randperm (rng r) n in
                          (inr p,
                           mkRuntime (params r) (training r) (grads r) (opt_state r)
                             g (trace r))
            else Py.ret (seq 0 n)) ;;
  Py.ret (DataLoader_batches dl order).

(** [row.argmax()]: the first index of the largest entry. *)
Fixpoint argmax_from (row : list Q) (i best_i : nat) (best : Q) : nat :=
  match row with
  | [] => best_i
  | x :: rest =>
      if Qlt_le_dec best x
      then argmax_from rest (S i) i x
      else argmax_from rest (S i) best_i best
  end.

Definition argmax (row : list Q) : Z :=
  match row with
  | [] => 0%Z
  | x :: rest => Z.of_nat (argmax_from rest 1 0 x)
  end.

(** [(outputs.argmax(dim=1) == labels).sum().item()], the head giving one
    row of logits per label. *)
Definition count_correct (outputs : list (list Q)) (labs : list Z) : Z :=
  Z.of_nat (List.length
    (filter (fun ol => Z.eqb (argmax (fst ol)) (snd ol)) (combine outputs labs))).

(** The [for batch in dataloader] loop of [train]. *)
Fixpoint train_batches (todo : list (Py.result Batch)) (total_loss : Q)
    (total_correct : Z) : Py.M Runtime (Q * Z) :=
  match todo with
  | [] => Py.ret (total_loss, total_correct)
  | next :: rest =>
      batch <- Py.lift_result next ;;
      zero_grad ;;;
      out <- call_model batch ;;
      let '(outputs, mask) := out in
      let loss := criterion outputs (batch_labels batch) in
      backward mask batch ;;;
      optimizer_step ;;;
      train_batches rest (total_loss + loss)
        (total_correct + count_correct outputs (batch_labels batch))
  end.

(** [train(model, dataloader, optimizer, criterion, device)] *)
Definition train (dl : DataLoader) : Py.M Runtime (Q * Q) :=
  set_mode true ;;;
  batches <- DataLoader_iter dl ;;
  totals <- train_batches batches 0 0 ;;
  let '(total_loss, total_correct) := totals in
  avg_loss <- Py.lift_result (Py.truediv total_loss (DataLoader_len dl)) ;;
  accuracy <- Py.lift_result
                (Py.truediv (inject_Z total_correct)
                   (SarcasmDataset_len (dataset dl))) ;;
  Py.ret (avg_loss, accuracy).

(** The [for batch in dataloader] loop of [evaluate], under [no_grad]. *)
Fixpoint evaluate_batches (todo : list (Py.result Batch)) (total_loss : Q)
    (total_correct : Z) : Py.M Runtime (Q * Z) :=
  match todo with
  | [] => Py.ret (total_loss, total_correct)
  | next :: rest =>
      batch <- Py.lift_result next ;;
      out <- call_model batch ;;
      let '(outputs, _) := out in
      let loss := criterion outputs (batch_labels batch) in
      evaluate_batches rest (total_loss + loss)
        (total_correct + count_correct outputs (batch_labels batch))
  end.

(** [evaluate(model, dataloader, criterion, device)] *)
Definition evaluate (dl : DataLoader) : Py.M Runtime (Q * Q) :=
  set_mode false ;;;
  batches <- DataLoader_iter dl ;;
  totals <- evaluate_batches batches 0 0 ;;
  let '(total_loss, total_correct) := totals in
  avg_loss <- Py.lift_result (Py.truediv total_loss (DataLoader_len dl)) ;;
  accuracy <- Py.lift_result
                (Py.truediv (inject_Z total_correct)
                   (SarcasmDataset_len (dataset dl))) ;;
  Py.ret (avg_loss, accuracy).

End Loops.

(** ** The epoch loop of [main] and its checkpoint policy *)

(** What the run leaves behind: the metric lines printed after each epoch
    and, as a ghost entry, each completed write of the checkpoint. *)
Inductive JournalEntry `{Torch} : Type :=
| JEpoch (train_loss train_accuracy val_loss val_accuracy : Q)
| JSave (snapshot : Params).

(** What is at the checkpoint path: nothing, the archive of a snapshot,
    or what a write that broke off has left, which no longer holds the
    snapshot that was there. *)
Inductive Checkpoint `{Torch} : Type :=
| Missing
| Truncated
| Saved (snapshot : Params).

(** How the storage takes a write: it goes through, the file cannot be
    opened for writing, or the file is opened, and emptied by that, and
    the write breaks off before its end. *)
Inductive StorageFault : Type := WriteOk | OpenFails | WriteFails.

(** The frame of [main] with the objects it holds and the checkpoint file.
    [storage_faults] scripts the storage: its head tells how the next
    write goes, and an empty script lets every write through. *)
Record Process `{Torch} : Type := mkProcess {
  runtime : Runtime;
  best_accuracy : Q;
  best_model_pt : Checkpoint;
  storage_faults : list StorageFault;
  journal : list JournalEntry
}.

Arguments mkProcess {_} _ _ _ _ _.

Section Main.

Context `{T : Torch}.

Definition in_runtime {A} (m : Py.M Runtime A) : Py.M Process A :=
  fun p => let (r, rt) := m (runtime p) in
           (r, mkProcess rt (best_accuracy p) (best_model_pt p)
                 (storage_faults p) (journal p)).

Definition print_metrics (tr ev : Q * Q) : Py.M Process unit :=
  Py.modify (fun p => mkProcess (runtime p) (best_accuracy p) (best_model_pt p)
                        (storage_faults p)
                        (journal p ++ [JEpoch (fst tr) (snd tr) (fst ev) (snd ev)])).

Definition set_best_accuracy (a : Q) : Py.M Process unit :=
  Py.modify (fun p => mkProcess (runtime p) a (best_model_pt p)
                        (storage_faults p) (journal p)).

(** [torch.save(model.state_dict(), 'best_model.pt')]: the file is
    opened for writing, which empties it, and the current parameters are
    written.  When the file cannot be opened it stays as it was; when the
    write breaks off, what was there is lost. *)
Definition torch_save : Py.M Process unit :=
  fun p =>
    match storage_faults p with
    | OpenFails :: later =>
        (inl Py.StorageError,
         mkProcess (runtime p) (best_accuracy p) (best_model_pt p) later (journal p))
    | WriteFails :: later =>
        (inl Py.StorageError,
         mkProcess (runtime p) (best_accuracy p) Truncated later (journal p))
    | faults =>
        (inr tt,
         mkProcess (runtime p) (best_accuracy p) (Saved (params (runtime p)))
           (tl faults) (journal p ++ [JSave (params (runtime p))]))
    end.

(** [if val_accuracy > best_accuracy: ...] *)
Definition checkpoint_policy (val_accuracy : Q) : Py.M Process unit :=
  best <- Py.gets best_accuracy ;;
  if Qlt_le_dec best val_accuracy
  then set_best_accuracy val_accuracy ;;; torch_save
  else Py.ret tt.

(** The body of [for epoch in range(epochs)]. *)
Definition epoch_body (train_loader val_loader : DataLoader) : Py.M Process unit :=
  tr <- in_runtime (train train_loader) ;;
  ev <- in_runtime (evaluate val_loader) ;;
  in_runtime scheduler_step ;;;
  print_metrics tr ev ;;;
  checkpoint_policy (snd ev).

Fixpoint for_range (epochs : nat) (body : Py.M Process unit) : Py.M Process unit :=
  match epochs with
  | O => Py.ret tt
  | S n => body ;;; for_range n body
  end.

(** [main] from [best_accuracy = 0] on, for loaders already built and the
    model and optimizer already in the process. *)
Definition main_epochs (train_loader val_loader : DataLoader) (epochs : nat)
    : Py.M Process unit :=
  set_best_accuracy 0 ;;;
  for_range epochs (epoch_body train_loader val_loader).

End Main.

(** ** The classifier heads, on tensor shapes *)

Module Shape.

Local Open Scope nat_scope.

Definition shape : Type := list nat.

Definition obind {A B} (o : option A) (k : A -> option B) : option B :=
  match o with
  | Some a => k a
  | None => None
  end.

(** Map a partial operation over a list; [None] as soon as one fails. *)
Fixpoint traverse {A B} (f : A -> option B) (l : list A) : option (list B) :=
  match l with
  | [] => Some []
  | a :: rest =>
      obind (f a) (fun b => obind (traverse f rest) (fun bs => Some (b :: bs)))
  end.

(** [x.unsqueeze(1)] *)
Definition unsqueeze1 (x : shape) : option shape :=
  match x with
  | [] => None
  | d :: rest => Some (d :: 1 :: rest)
  end.

(** [x.squeeze(dim)]: the dimension goes when its size is one. *)
Definition squeeze (dim : nat) (x : shape) : option shape :=
  match nth_error x dim with
  | None => None
  | Some d => if Nat.eqb d 1 then Some (firstn dim x ++ skipn (S dim) x) else Some x
  end.

(** [x.size(dim)] *)
Definition size (x : shape) (dim : nat) : option nat := nth_error x dim.

(** [torch.relu] and dropout keep the shape. *)
Definition relu (x : shape) : shape := x.
Definition dropout (x : shape) : shape := x.

(** [nn.Conv2d(cin, cout, (kh, kw))] on a batched input, stride one and
    no padding: there is at least one output channel, and the kernel has
    to fit. *)
Definition conv2d (cin cout kh kw : nat) (x : shape) : option shape :=
  match x with
  | [b; c; h; w] =>
      if (Nat.eqb c cin && Nat.leb 1 cout && Nat.leb 1 kh && Nat.leb 1 kw
          && Nat.leb kh h && Nat.leb kw w)%bool
      then Some [b; cout; h - kh + 1; w - kw + 1]
      else None
  | _ => None
  end.

(** [torch.max_pool1d(x, k)], the stride being the kernel size. *)
Definition max_pool1d (x : shape) (k : nat) : option shape :=
  match x with
  | [b; c; l] =>
      if (Nat.leb 1 k && Nat.leb k l)%bool
      then Some [b; c; (l - k) / k + 1]
      else None
  | _ => None
  end.

(** [torch.cat(xs, 1)] of rank-2 tensors. *)
Fixpoint cat1 (xs : list shape) : option shape :=
  match xs with
  | [] => None
  | [[b; c]] => Some [b; c]
  | [b; c] :: rest =>
      obind (cat1 rest) (fun r =>
        match r with
        | [b'; c'] => if Nat.eqb b b' then Some [b; c + c'] else None
        | _ => None
        end)
  | _ => None
  end.

(** [nn.Linear(fin, fout)] on a rank-2 input. *)
Definition linear (fin fout : nat) (x : shape) : option shape :=
  match x with
  | [b; f] => if Nat.eqb f fin then Some [b; fout] else None
  | _ => None
  end.

(** The output sequence of [nn.LSTM] and [nn.RNN] with [batch_first];
    the layer has a positive hidden size and a positive number of
    layers. *)
Definition recurrent (input_size hidden layers : nat) (x : shape) : option shape :=
  match x with
  | [b; l; f] =>
      if (Nat.eqb f input_size && Nat.leb 1 hidden && Nat.leb 1 layers)%bool
      then Some [b; l; hidden] else None
  | _ => None
  end.

(** [torch.mean(x, 1)] *)
Definition mean1 (x : shape) : option shape :=
  match x with
  | d :: _ :: rest => Some (d :: rest)
  | _ => None
  end.

(** The pretrained encoder: its hidden width, and the shapes of
    [last_hidden_state] and [pooler_output] for a batch it accepts. *)
Class Encoder : Type := {
  hidden_size : nat;
  bert : shape -> shape -> option (shape * shape)
}.

Record BertCNN : Type := mkBertCNN {
  cnn_num_classes : nat;
  cnn_num_filters : nat;
  cnn_filter_sizes : list nat
}.

Record BertMLP : Type := mkBertMLP {
  mlp_num_classes : nat;
  mlp_hidden_size : nat
}.

Record BertLSTM : Type := mkBertLSTM {
  lstm_num_classes : nat;
  lstm_hidden_size : nat;
  lstm_num_layers : nat
}.

Record BertRNN : Type := mkBertRNN {
  rnn_num_classes : nat;
  rnn_hidden_size : nat;
  rnn_num_layers : nat
}.

(** The constructors' defaults. *)
Definition BertCNN_default : BertCNN := mkBertCNN 2 100 [3; 4; 5].
Definition BertMLP_default : BertMLP := mkBertMLP 2 50.
Definition BertLSTM_default : BertLSTM := mkBertLSTM 2 50 1.
Definition BertRNN_default : BertRNN := mkBertRNN 2 50 1.

Section Heads.

Context `{E : Encoder}.

(** [BertCNN.forward] *)
Definition BertCNN_forward (m : BertCNN) (input_ids attention_mask : shape)
    : option shape :=
  obind (bert input_ids attention_mask) (fun bert_output =>
  obind (unsqueeze1 (fst bert_output)) (fun x =>
  obind (traverse (fun k =>
           obind (conv2d 1 (cnn_num_filters m) k hidden_size x) (fun c =>
           squeeze 3 (relu c)))
         (cnn_filter_sizes m)) (fun xs =>
  obind (traverse (fun i =>
           obind (size i 2) (fun k =>
           obind (max_pool1d i k) (fun p =>
           squeeze 2 p)))
         xs) (fun pooled =>
  obind (cat1 pooled) (fun x' =>
  linear (List.length (cnn_filter_sizes m) * cnn_num_filters m)
    (cnn_num_classes m) (dropout x')))))).

(** [BertMLP.forward] *)
Definition BertMLP_forward (m : BertMLP) (input_ids attention_mask : shape)
    : option shape :=
  obind (bert input_ids attention_mask) (fun bert_output =>
  let pooled_output := snd bert_output in
  obind (linear hidden_size (mlp_hidden_size m) pooled_output) (fun h =>
  linear (mlp_hidden_size m) (mlp_num_classes m) (dropout (relu h)))).

(** [BertLSTM.forward] *)
Definition BertLSTM_forward (m : BertLSTM) (input_ids attention_mask : shape)
    : option shape :=
  obind (bert input_ids attention_mask) (fun bert_output =>
  obind (recurrent hidden_size (lstm_hidden_size m) (lstm_num_layers m)
           (fst bert_output))
    (fun lstm_output =>
  obind (mean1 lstm_output) (fun pooled_output =>
  linear (lstm_hidden_size m) (lstm_num_classes m) (dropout pooled_output)))).

(** [BertRNN.forward] *)
Definition BertRNN_forward (m : BertRNN) (input_ids attention_mask : shape)
    : option shape :=
  obind (bert input_ids attention_mask) (fun bert_output =>
  obind (recurrent hidden_size (rnn_hidden_size m) (rnn_num_layers m)
           (fst bert_output))
    (fun rnn_output =>
  obind (mean1 rnn_output) (fun pooled_output =>
  linear (rnn_hidden_size m) (rnn_num_classes m) (dropout pooled_output)))).

End Heads.

End Shape.

(** ** Vocabulary of the properties *)

(** The errors the adapter's contract calls parse errors (a line that is
    not JSON, a missing field, a line that is JSON but no object) and
    configuration errors. *)
Definition is_parse_error (e : Py.exn) : Prop :=
  e = Py.JSONDecodeError \/ (exists k, e = Py.KeyError k) \/ e = Py.TypeError.

Definition is_configuration_error (e : Py.exn) : Prop := e = Py.OSError.

(** The value holds a float that is no number of the JSON grammar. *)
Fixpoint has_special (v : Py.value) : bool :=
  match v with
  | Py.VSpecial _ => true
  | Py.VList l => existsb has_special l
  | Py.VDict items =>
      (fix go (l : list (string * Py.value)) : bool :=
         match l with
         | [] => false
         | (_, x) :: rest => (has_special x || go rest)%bool
         end) items
  | _ => false
  end.

(** The line is not valid JSON: the decoder refuses it, or takes it only
    through one of its literals beyond the grammar. *)
Definition not_valid_json `{E : Environment} (line : string) : Prop :=
  match json_loads line with
  | None => True
  | Some v => has_special v = true
  end.

(** The value carries no field [key]. *)
Definition lacks_field (v : Py.value) (key : string) : bool :=
  match v with
  | Py.VDict items => negb (existsb (fun kv => String.eqb (fst kv) key) items)
  | _ => true
  end.

(** A line is bad when the decoder refuses it or it misses the text field
    or the label field.  The decoder's refusal is narrower than
    [not_valid_json]: a line with a literal beyond the grammar passes. *)
Definition bad_line `{E : Environment} (line : string) : Prop :=
  match json_loads line with
  | None => True
  | Some v => lacks_field v "headline" = true \/ lacks_field v "is_sarcastic" = true
  end.

(** The tokenizer boundary: asked to pad and truncate to [n], with special
    tokens and the attention mask, the tokenizer answers any text with one
    row of [n] token ids and one row of [n] mask bits. *)
Definition fixed_length_tokenizer (tok : Tokenizer) (n : nat) : Prop :=
  forall text : string,
    exists ids mask,
      encode_plus tok (Py.VStr text) (mkEncodeArgs true n PadMaxLength true true)
        = inr ([ids], [mask])
      /\ List.length ids = n /\ List.length mask = n.

(** Positions at which prediction and label agree. *)
Fixpoint hits (preds labs : list Z) : nat :=
  match preds, labs with
  | p :: ps, l :: ls => ((if Z.eqb p l then 1 else 0) + hits ps ls)%nat
  | _, _ => 0%nat
  end.

(** Two prediction vectors are equal as tensors. *)
Fixpoint all_equal (preds labs : list Z) : bool :=
  match preds, labs with
  | [], [] => true
  | p :: ps, l :: ls => (Z.eqb p l && all_equal ps ls)%bool
  | _, _ => false
  end.

(** Where a training epoch stands between two batches. *)
Record Progress `{Torch} : Type := mkProgress {
  pr_params : Params;
  pr_grads : option Grad;
  pr_opt : OptState;
  pr_rng : Rng;
  pr_loss : Q;
  pr_correct : Z
}.

Arguments mkProgress {_} _ _ _ _ _ _.

Section Vocabulary.

Context `{T : Torch}.

Definition logits (p : Params) (mask : option Mask) (b : Batch) : list (list Q) :=
  forward p mask (batch_input_ids b) (batch_attention_mask b).

Definition predictions (p : Params) (mask : option Mask) (b : Batch) : list Z :=
  map argmax (logits p mask b).

(** Examples of the batches whose prediction, in evaluation mode, is
    their label. *)
Definition correct_examples (p : Params) (bs : list Batch) : nat :=
  list_sum (map (fun b => hits (predictions p None b) (batch_labels b)) bs).

(** Batches whose prediction vector, in evaluation mode, equals their
    label vector. *)
Definition correct_batches (p : Params) (bs : list Batch) : nat :=
  List.length
    (filter (fun b => all_equal (predictions p None b) (batch_labels b)) bs).

Definition total_examples (bs : list Batch) : nat :=
  list_sum (map (fun b => List.length (batch_labels b)) bs).

(** The sum of the batch losses in evaluation mode, from [start] on. *)
Definition loss_sum (p : Params) (bs : list Batch) (start : Q) : Q :=
  fold_left (fun acc b => acc + criterion (logits p None b) (batch_labels b)) bs start.

(** One batch of the training state machine, in the words of its
    contract: logits from the head, loss against the labels, the gradient
    of this batch alone, one optimizer step with it; the loss and the
    correct predictions are added to the running totals. *)
Definition training_step (s : Progress) (b : Batch) : Progress :=
  let (m, g) := draw_mask (pr_rng s) in
  let outputs := logits (pr_params s) (Some m) b in
  let grad := gradient (pr_params s) (Some m) b in
  let (o, p) := adamw (pr_opt s) (pr_params s) grad in
  mkProgress p (Some grad) o g
    (pr_loss s + criterion outputs (batch_labels b))
    (pr_correct s + Z.of_nat (hits (map argmax outputs) (batch_labels b))).

Definition training_epoch (s : Progress) (bs : list Batch) : Progress :=
  fold_left training_step bs s.

(** What one training batch leaves in the trace. *)
Definition batch_events (b : Batch) : list Event :=
  [EvZeroGrad; EvForward true b; EvBackward; EvStep].

(** [torch.randperm(n)] returns a permutation of [0 .. n-1]. *)
Definition randperm_permutes : Prop :=
  forall r n, Permutation (fst (randperm r n)) (seq 0 n).

(** The loader, iterated in runtime [rt], hands out the batches [bs], all
    fetched without an exception, and leaves the runtime [rt']. *)
Definition yields (dl : DataLoader) (rt : Runtime) (bs : list Batch)
    (rt' : Runtime) : Prop :=
  DataLoader_iter dl rt = (inr (map inr bs), rt').

(** The index order one pass of the loader uses, and the generator after
    drawing it. *)
Definition drawn_order (dl : DataLoader) (r : Rng) : list nat * Rng :=
  if shuffle dl
  then randperm r (SarcasmDataset_len (dataset dl))
  else (seq 0 (SarcasmDataset_len (dataset dl)), r).

(** A pass started right after the pass that began with the generator at
    [r] goes through the indices in the same order, so that both see the
    same batch sequence. *)
Definition same_order_again (dl : DataLoader) (r : Rng) : Prop :=
  fst (drawn_order dl (snd (drawn_order dl r))) = fst (drawn_order dl r).

(** The two divisions that close both loops. *)
Definition metrics (dl : DataLoader) (total_loss : Q) (total_correct : Z)
    : Py.result (Q * Q) :=
  avg_loss <-? Py.truediv total_loss (DataLoader_len dl) ;;
  accuracy <-? Py.truediv (inject_Z total_correct)
                 (SarcasmDataset_len (dataset dl)) ;;
  Py.ok (avg_loss, accuracy).

(** The validation accuracies printed, in order. *)
Fixpoint val_accuracies (j : list JournalEntry) : list Q :=
  match j with
  | [] => []
  | JEpoch _ _ _ v :: rest => v :: val_accuracies rest
  | JSave _ :: rest => val_accuracies rest
  end.

(** The snapshots written, in order. *)
Fixpoint snapshots (j : list JournalEntry) : list Params :=
  match j with
  | [] => []
  | JEpoch _ _ _ _ :: rest => snapshots rest
  | JSave p :: rest => p :: snapshots rest
  end.

(** The writes that come right at the head of a journal. *)
Fixpoint leading_saves (j : list JournalEntry) : list Params :=
  match j with
  | JSave p :: rest => p :: leading_saves rest
  | _ => []
  end.

(** For each epoch, the snapshots written at its end. *)
Fixpoint saves_by_epoch (j : list JournalEntry) : list (list Params) :=
  match j with
  | [] => []
  | JEpoch _ _ _ _ :: rest => leading_saves rest :: saves_by_epoch rest
  | JSave _ :: rest => saves_by_epoch rest
  end.

(** A checkpoint was persisted at the end of epoch [k]. *)
Definition persisted_at (j : list JournalEntry) (k : nat) : Prop :=
  nth k (saves_by_epoch j) [] <> [].

End Vocabulary.

(** What one epoch shows the policy: the four metrics printed and the
    parameters the model then has. *)
Definition Observation `{Torch} : Type := (Q * Q * Q * Q * Params)%type.

Definition observed_accuracy `{Torch} (o : Observation) : Q := snd (fst o).

(** The journal the policy writes over the epochs [obs] with the
    accumulator at [best]: for each epoch the metrics line, followed by a
    write when the validation accuracy exceeds the best so far. *)
Fixpoint policy_journal `{Torch} (best : Q) (obs : list Observation)
    : list JournalEntry :=
  match obs with
  | [] => []
  | (a, b, c, v, p) :: rest =>
      if Qlt_le_dec best v
      then JEpoch a b c v :: JSave p :: policy_journal v rest
      else JEpoch a b c v :: policy_journal best rest
  end.

Definition Qltb (x y : Q) : bool := if Qlt_le_dec x y then true else false.

(** Epoch [k] is strictly above [base] and above every earlier epoch. *)
Definition exceeds (base : Q) (accs : list Q) (k : nat) : Prop :=
  base < nth k accs 0 /\ forall j, (j < k)%nat -> nth j accs 0 < nth k accs 0.

Definition exceedsb (base : Q) (accs : list Q) (k : nat) : bool :=
  Qltb base (nth k accs 0)
  && forallb (fun j => Qltb (nth j accs 0) (nth k accs 0)) (seq 0 k).

(** Epoch [k] improves strictly on the zero the accumulator starts from
    and on every earlier epoch. *)
Definition strict_increase (accs : list Q) (k : nat) : Prop := exceeds 0 accs k.

(** The number of strict increases of a sequence of accuracies. *)
Definition strict_increases (accs : list Q) : nat :=
  List.length (filter (exceedsb 0 accs) (seq 0 (List.length accs))).

(** The two lines of the example scenario. *)
Definition quote : string := String (Ascii.ascii_of_nat 34) EmptyString.

(** The line [{"headline":<text>,"is_sarcastic":<label>}], text quoted. *)
Definition record_line (text label : string) : string :=
  String.append "{" (String.append quote (String.append "headline"
  (String.append quote (String.append ":" (String.append quote
  (String.append text (String.append quote (String.append ","
  (String.append quote (String.append "is_sarcastic" (String.append quote
  (String.append ":" (String.append label "}"))))))))))))).

Definition line_a : string := record_line "a" "0".
Definition line_long : string := record_line "sarcasm detection" "1".
Definition line_nan : string := record_line "a" "NaN".
Definition line_b : string := record_line "b" "1".

Definition record_a : Py.value :=
  Py.VDict [("headline", Py.VStr "a"); ("is_sarcastic", Py.VInt 0)].
Definition record_b : Py.value :=
  Py.VDict [("headline", Py.VStr "b"); ("is_sarcastic", Py.VInt 1)].

(** ** Further vocabulary *)

(** What a line contributes to the dataset: the two fields of the object
    it holds, as parsed. *)
Definition parsed_record `{E : Environment} (line : string)
    : option (Py.value * Py.value) :=
  match json_loads line with
  | Some (Py.VDict items) =>
      match Py.lookup "headline" items, Py.lookup "is_sarcastic" items with
      | Some h, Some l => Some (h, l)
      | _, _ => None
      end
  | _ => None
  end.

(** The exception a line makes the constructor raise, if any: the text
    field is looked up before the label field. *)
Definition line_error `{E : Environment} (line : string) : option Py.exn :=
  match json_loads line with
  | None => Some Py.JSONDecodeError
  | Some (Py.VDict items) =>
      match Py.lookup "headline" items, Py.lookup "is_sarcastic" items with
      | None, _ => Some (Py.KeyError "headline")
      | Some _, None => Some (Py.KeyError "is_sarcastic")
      | Some _, Some _ => None
      end
  | Some _ => Some Py.TypeError
  end.

(** Record [i] of the dataset holds a text and an integer label that fits
    64 bits. *)
Definition text_record (ds : SarcasmDataset) (i : nat) : Prop :=
  exists text label,
    nth_error (data ds) i = Some (Py.VStr text, Py.VInt label)
    /\ (int64_min <= label <= int64_max)%Z.

(** The runtime with other accumulated gradients. *)
Definition set_grads `{Torch} (rt : Runtime) (g : option Grad) : Runtime :=
  mkRuntime (params rt) (training rt) g (opt_state rt) (rng rt) (trace rt).

(** The accumulator after the accuracies [accs], from [best] on. *)
Definition running_best (best : Q) (accs : list Q) : Q :=
  fold_left (fun b v => if Qlt_le_dec b v then v else b) accs best.

(** ** A small world to run the script in *)

Module Toy.

(** A parser that knows a handful of lines. *)
Definition loads (line : string) : option Py.value :=
  if String.eqb line line_a then Some record_a
  else if String.eqb line line_b then Some record_b
  else if String.eqb line "{}" then Some (Py.VDict [])
  else if String.eqb line "[1]" then Some (Py.VList [Py.VInt 1])
  else if String.eqb line line_long
       then Some (Py.VDict [("headline", Py.VStr "sarcasm detection");
                            ("is_sarcastic", Py.VInt 1)])
  else if String.eqb line line_nan
       then Some (Py.VDict [("headline", Py.VStr "a");
                            ("is_sarcastic", Py.VSpecial Py.NaN)])
  else None.

Fixpoint codes (s : string) : list Z :=
  match s with
  | EmptyString => []
  | String c rest => Z.of_nat (Ascii.nat_of_ascii c) :: codes rest
  end.

(** The BERT tokenizer over a vocabulary of one token per character. *)
Definition encode (text : Py.value) (args : encode_args)
    : Py.result (list (list Z) * list (list Z)) :=
  bert_encode_plus codes text args.

Definition tok : Tokenizer := mkTokenizer encode.

Definition env : Environment := {|
  from_pretrained name :=
    if String.eqb name "bert-base-uncased" then Some tok else None;
  json_loads := loads;
  file_system path :=
    if String.eqb path "two.json" then Some [line_a; line_b]
    else if String.eqb path "bad.json" then Some [line_a; "{}"]
    else if String.eqb path "mixed.json" then Some [line_long; line_a]
    else if String.eqb path "nan.json" then Some [line_nan]
    else if String.eqb path "empty.json" then Some []
    else None
|}.

(** A one-weight model: the second logit is the first character's offset
    from the letter a, the first logit is the weight. *)
Definition torch : Torch := {|
  Params := Z;
  OptState := nat;
  Grad := Z;
  Rng := nat;
  Mask := nat;
  forward p _ ids _ :=
    map (fun row => [inject_Z p; inject_Z (nth 1 row 0%Z - 97)]) ids;
  criterion outputs labs :=
    inject_Z (Z.of_nat (List.length labs)) - inject_Z (count_correct outputs labs);
  gradient _ _ _ := 1%Z;
  grad_add := Z.add;
  adamw o p g := (S o, (p + g)%Z);
  schedule o := o;
  randperm r n := (rev (seq 0 n), S r);
  draw_mask r := (r, S r)
|}.

Definition two : SarcasmDataset :=
  mkDataset [(Py.VStr "a", Py.VInt 0); (Py.VStr "b", Py.VInt 1)] tok 8.

Definition mixed : SarcasmDataset :=
  mkDataset [(Py.VStr "sarcasm detection", Py.VInt 1); (Py.VStr "a", Py.VInt 0)]
    tok 8.

Definition empty : SarcasmDataset := mkDataset [] tok 8.


(** A dataset whose second record has a label that is no number. *)
Definition flawed : SarcasmDataset :=
  mkDataset [(Py.VStr "a", Py.VInt 0); (Py.VStr "b", Py.VStr "yes")] tok 8.

(** The batch of the first record alone. *)
Definition batch_a : Batch :=
  mkBatch [[101; 97; 102; 0; 0; 0; 0; 0]]%Z [[1; 1; 1; 0; 0; 0; 0; 0]]%Z [0]%Z.

(** A fresh runtime with weight [p]. *)
Definition runtime0 (p : Z) : Runtime (H := torch) :=
  mkRuntime (H := torch) p false None 0%nat 0%nat [].

Definition process0 (p : Z) (faults : list StorageFault) : Process (H := torch) :=
  mkProcess (H := torch) (runtime0 p) 0 Missing faults [].

(** The same batch in the reverse order, as the shuffling loader of this
    world hands it out. *)
Definition batch_ba : Batch :=
  mkBatch [[101; 98; 102; 0; 0; 0; 0; 0]; [101; 97; 102; 0; 0; 0; 0; 0]]%Z
          [[1; 1; 1; 0; 0; 0; 0; 0]; [1; 1; 1; 0; 0; 0; 0; 0]]%Z
          [1; 0]%Z.

Definition train_loader : DataLoader := mkDataLoader two 2 true.
Definition val_loader : DataLoader := mkDataLoader two 2 false.

(** An encoder of hidden width 768 that accepts every batch whose two
    tensors have one and the same rank-2 shape. *)
Definition encoder : Shape.Encoder := {|
  Shape.hidden_size := 768;
  Shape.bert ids mask :=
    match ids, mask with
    | [b; l], [b'; l'] =>
        if (Nat.eqb b b' && Nat.eqb l l')%bool
        then Some ([b; l; 768%nat], [b; 768%nat]) else None
    | _, _ => None
    end
|}.

(** Three epochs from the weight -2, the storage sound. *)
Definition run3 : Py.result unit * Process (H := torch) :=
  main_epochs (T := torch) train_loader val_loader 3 (process0 (-2) []).

(** The batch of the two records of [two], in file order. *)
Definition batch_ab : Batch :=
  mkBatch [[101; 97; 102; 0; 0; 0; 0; 0]; [101; 98; 102; 0; 0; 0; 0; 0]]%Z
          [[1; 1; 1; 0; 0; 0; 0; 0]; [1; 1; 1; 0; 0; 0; 0; 0]]%Z
          [0; 1]%Z.

End Toy.

(** * Properties *)

(** ** The dataset adapter *)

Lemma subscript_error (v : Py.value) (key : string) (e : Py.exn) :
  Py.subscript v key = inl e -> is_parse_error e.
Proof.
  destruct v; simpl; try (intros [= <-]; right; right; reflexivity).
  destruct (Py.lookup key items); [discriminate|].
  intros [= <-]. right; left. exists key. reflexivity.
Qed.

Lemma lookup_lacks (key : string) (items : list (string * Py.value)) :
  existsb (fun kv => String.eqb (fst kv) key) items = false ->
  Py.lookup key items = None.
Proof.
  induction items as [|[k x] items IH]; simpl; [reflexivity|].
  destruct (String.eqb k key); simpl; [discriminate | exact IH].
Qed.

Lemma subscript_lacks_field (v : Py.value) (key : string) :
  lacks_field v key = true -> exists e, Py.subscript v key = inl e.
Proof.
  destruct v; simpl; try (intros _; eexists; reflexivity).
  intros Hl. apply negb_true_iff in Hl.
  rewrite (lookup_lacks _ _ Hl). eexists; reflexivity.
Qed.

Lemma read_lines_error `{E : Environment} (lines : list string) :
  forall acc e, read_lines lines acc = inl e -> is_parse_error e.
Proof.
  induction lines as [|line rest IH]; intros acc e; simpl; [discriminate|].
  destruct (json_loads line) as [v|]; simpl.
  - destruct (Py.subscript v "headline") as [e1|h] eqn:Hh; simpl.
    + intros [= <-]. exact (subscript_error _ _ _ Hh).
    + destruct (Py.subscript v "is_sarcastic") as [e2|l] eqn:Hl; simpl.
      * intros [= <-]. exact (subscript_error _ _ _ Hl).
      * apply IH.
  - intros [= <-]. left; reflexivity.
Qed.

Lemma read_lines_bad `{E : Environment} (lines : list string) :
  Exists bad_line lines -> forall acc, exists e, read_lines lines acc = inl e.
Proof.
  induction 1 as [line rest Hbad | line rest _ IH]; intros acc; simpl.
  - unfold bad_line in Hbad. destruct (json_loads line) as [v|]; simpl.
    + destruct (Py.subscript v "headline") as [e1|h] eqn:Hh; simpl.
      * eexists; reflexivity.
      * destruct Hbad as [Hbad | Hbad];
          destruct (subscript_lacks_field _ _ Hbad) as (e & He).
        -- congruence.
        -- rewrite He. eexists; reflexivity.
    + eexists; reflexivity.
  - destruct (json_loads line) as [v|]; simpl; [|eexists; reflexivity].
    destruct (Py.subscript v "headline"); simpl; [eexists; reflexivity|].
    destruct (Py.subscript v "is_sarcastic"); simpl; [eexists; reflexivity|].
    apply IH.
Qed.

Lemma lookup_present (key : string) (items : list (string * Py.value)) :
  existsb (fun kv => String.eqb (fst kv) key) items = true ->
  exists x, Py.lookup key items = Some x.
Proof.
  induction items as [|[k x] items IH]; simpl; [discriminate|].
  destruct (String.eqb k key); simpl; [intros _; eexists; reflexivity | exact IH].
Qed.

Lemma subscript_has_field (v : Py.value) (key : string) :
  lacks_field v key <> true -> exists x, Py.subscript v key = inr x.
Proof.
  destruct v; simpl; try congruence.
  intros Hl. apply not_true_is_false, negb_false_iff in Hl.
  destruct (lookup_present _ _ Hl) as (x & ->). eexists; reflexivity.
Qed.

Lemma read_lines_good `{E : Environment} (lines : list string) :
  ~ Exists bad_line lines -> forall acc, exists d, read_lines lines acc = inr d.
Proof.
  induction lines as [|line rest IH]; intros Hgood acc; simpl.
  - eexists; reflexivity.
  - assert (Hline : ~ bad_line line) by (intros H; apply Hgood; left; exact H).
    assert (Hrest : ~ Exists bad_line rest)
      by (intros H; apply Hgood; right; exact H).
    unfold bad_line in Hline.
    destruct (json_loads line) as [v|]; [|exfalso; exact (Hline I)]. simpl.
    destruct (subscript_has_field v "headline") as (h & ->);
      [intros H; apply Hline; left; exact H|].
    destruct (subscript_has_field v "is_sarcastic") as (l & ->);
      [intros H; apply Hline; right; exact H|].
    simpl. apply IH, Hrest.
Qed.

(** C8, with the decoder's own notion of a bad line.  An unresolvable
    tokenizer identifier makes the construction fail with a configuration
    error; when the identifier resolves and the file opens, a line that
    the decoder refuses or that lacks the text or the label field makes
    it fail with a parse error, and no dataset is returned; and when no
    line is of that kind the construction returns a dataset, also when a
    line is not valid JSON but passes the decoder. *)
Theorem init_error_taxonomy `{E : Environment} (json_file name : string) (n : nat) :
  (from_pretrained name = None ->
     SarcasmDataset_init json_file name n = inl Py.OSError
     /\ is_configuration_error Py.OSError)
  /\ (forall t lines,
        from_pretrained name = Some t ->
        file_system json_file = Some lines ->
        Exists bad_line lines ->
        exists e, SarcasmDataset_init json_file name n = inl e /\ is_parse_error e)
  /\ (forall t lines,
        from_pretrained name = Some t ->
        file_system json_file = Some lines ->
        ~ Exists bad_line lines ->
        exists ds, SarcasmDataset_init json_file name n = inr ds).
Proof.
  split; [|split].
  - intros Hn. unfold SarcasmDataset_init. rewrite Hn. simpl.
    split; reflexivity.
  - intros t lines Ht Hf Hbad. unfold SarcasmDataset_init.
    rewrite Ht, Hf. simpl.
    destruct (read_lines_bad lines Hbad []) as (e & He).
    exists e. rewrite He. simpl. split; [reflexivity|].
    exact (read_lines_error _ _ _ He).
  - intros t lines Ht Hf Hgood. unfold SarcasmDataset_init.
    rewrite Ht, Hf. simpl.
    destruct (read_lines_good lines Hgood []) as (d & ->).
    eexists. reflexivity.
Qed.

Lemma init_error_taxonomy_witness :
  SarcasmDataset_init (E := Toy.env) "bad.json" "unknown-model" 128 = inl Py.OSError
  /\ (exists e, SarcasmDataset_init (E := Toy.env) "bad.json" "bert-base-uncased" 128
                 = inl e
               /\ is_parse_error e)
  /\ (exists ds, SarcasmDataset_init (E := Toy.env) "two.json" "bert-base-uncased" 128
                 = inr ds).
Proof.
  split; [|split].
  - apply (proj1 (init_error_taxonomy (E := Toy.env) "bad.json" "unknown-model" 128)).
    reflexivity.
  - apply (proj1 (proj2 (init_error_taxonomy (E := Toy.env) "bad.json"
                           "bert-base-uncased" 128))
             Toy.tok [line_a; "{}"]); try reflexivity.
    apply Exists_cons_tl, Exists_cons_hd. unfold bad_line. simpl.
    left; reflexivity.
  - apply (proj2 (proj2 (init_error_taxonomy (E := Toy.env) "two.json"
                           "bert-base-uncased" 128))
             Toy.tok [line_a; line_b]); try reflexivity.
    intros Hbad. inversion Hbad as [? ? H | ? ? H]; subst.
    + unfold bad_line in H. simpl in H. destruct H; discriminate.
    + inversion H as [? ? H' | ? ? H']; subst.
      * unfold bad_line in H'. simpl in H'. destruct H'; discriminate.
      * inversion H'.
Defined.

(** C8 as stated fails: a line whose label is the literal NaN is not
    valid JSON, yet the decoder takes it and the construction returns a
    dataset. *)
Lemma init_not_valid_json_counterexample :
  file_system (Environment := Toy.env) "nan.json" = Some [line_nan]
  /\ not_valid_json (E := Toy.env) line_nan
  /\ SarcasmDataset_init (E := Toy.env) "nan.json" "bert-base-uncased" 128
     = inr (mkDataset [(Py.VStr "a", Py.VSpecial Py.NaN)] Toy.tok 128).
Proof. split; [reflexivity|]. split; reflexivity. Qed.

Lemma list_index_nth {A} (l : list A) (i : nat) (a : A) :
  nth_error l i = Some a -> Py.list_index l (Z.of_nat i) = inr a.
Proof.
  intros Hn. unfold Py.list_index.
  assert (Hi : (i < List.length l)%nat) by (apply nth_error_Some; congruence).
  destruct (Z.ltb_spec (Z.of_nat i) 0); [lia|].
  destruct (Z.leb_spec 0 (Z.of_nat i)); [|lia].
  destruct (Z.ltb_spec (Z.of_nat i) (Z.of_nat (List.length l))); [|lia].
  simpl. rewrite Nat2Z.id, Hn. reflexivity.
Qed.

(** The BERT tokenizer on a window of at least two tokens. *)
Lemma bert_encode_window (tokenize : string -> list Z) (text : string) (n : nat) :
  (2 <= n)%nat ->
  let toks := firstn (n - 2) (tokenize text) in
  let ids := (101 :: toks ++ [102])%Z in
  bert_encode_plus tokenize (Py.VStr text) (mkEncodeArgs true n PadMaxLength true true)
  = inr ([ids ++ repeat 0%Z (n - List.length ids)],
         [repeat 1%Z (List.length ids) ++ repeat 0%Z (n - List.length ids)])
  /\ List.length (ids ++ repeat 0%Z (n - List.length ids)) = n
  /\ List.length (repeat 1%Z (List.length ids) ++ repeat 0%Z (n - List.length ids)) = n.
Proof.
  intros Hn toks ids. unfold bert_encode_plus.
  cbn [arg_max_length add_special_tokens truncation padding andb].
  destruct (Nat.leb_spec 2 n); [|lia].
  split; [reflexivity|].
  assert (Hf : (List.length toks <= n - 2)%nat)
    by (unfold toks; rewrite length_firstn; lia).
  assert (Hi : List.length ids = (List.length toks + 2)%nat)
    by (unfold ids; cbn [List.length]; rewrite length_app; simpl; lia).
  rewrite !length_app, !repeat_length, Hi. lia.
Qed.

Lemma bert_fixed_length (tokenize : string -> list Z) (n : nat) :
  (2 <= n)%nat -> fixed_length_tokenizer (bert_tokenizer tokenize) n.
Proof.
  intros Hn text. destruct (bert_encode_window tokenize text n Hn) as (He & Hi & Hm).
  eexists; eexists. split; [exact He|]. split; assumption.
Qed.

Lemma toy_fixed_length (n : nat) : (2 <= n)%nat -> fixed_length_tokenizer Toy.tok n.
Proof. exact (bert_fixed_length Toy.codes n). Qed.

Lemma getitem_encoded (ds : SarcasmDataset) (i : nat) (text : string) (label : Z) :
  fixed_length_tokenizer (tokenizer ds) (max_length ds) ->
  nth_error (data ds) i = Some (Py.VStr text, Py.VInt label) ->
  (int64_min <= label <= int64_max)%Z ->
  exists ex,
    SarcasmDataset_getitem ds (Z.of_nat i) = inr ex
    /\ List.length (input_ids ex) = max_length ds
    /\ List.length (attention_mask ex) = max_length ds
    /\ labels ex = label.
Proof.
  intros Htok Hrec Hlab. unfold SarcasmDataset_getitem.
  rewrite (list_index_nth _ _ _ Hrec). simpl.
  destruct (Htok text) as (ids & mask & -> & Hi & Hm). simpl.
  destruct (Z.leb_spec int64_min label); [|lia].
  destruct (Z.leb_spec label int64_max); [|lia].
  simpl. eexists. split; [reflexivity|]. simpl.
  unfold flatten. simpl. rewrite !app_nil_r. auto.
Qed.




(** ** The batch loader *)

Lemma batch_sampler_concat (size : nat) (sampler : list nat) :
  forall batch, List.concat (batch_sampler size sampler batch) = batch ++ sampler.
Proof.
  induction sampler as [|idx rest IH]; intros batch; simpl.
  - destruct batch; simpl; rewrite ?app_nil_r; reflexivity.
  - destruct (Nat.eqb (List.length (batch ++ [idx])) size); simpl; rewrite IH;
      simpl; rewrite <- ?app_assoc; reflexivity.
Qed.

Lemma batch_sampler_length (size : nat) (sampler : list nat) :
  (0 < size)%nat ->
  forall batch, (List.length batch < size)%nat ->
    List.length (batch_sampler size sampler batch)
    = ((List.length batch + List.length sampler + size - 1) / size)%nat.
Proof.
  intros Hs. induction sampler as [|idx rest IH]; intros batch Hb;
    cbn [batch_sampler].
  - change (List.length (@nil nat)) with 0%nat.
    destruct (Nat.ltb_spec 0 (List.length batch)) as [Hpos | Hz].
    + change (List.length [batch]) with 1%nat.
      apply (Nat.div_unique _ _ _ (List.length batch - 1)%nat); lia.
    + change (List.length (@nil (list nat))) with 0%nat.
      symmetry. apply Nat.div_small. lia.
  - rewrite length_app. change (List.length [idx]) with 1%nat.
    change (List.length (idx :: rest)) with (S (List.length rest)).
    destruct (Nat.eqb_spec (List.length batch + 1) size) as [He | Hne].
    + change (List.length (?x :: ?l)) with (S (List.length l)).
      cbn [List.length]. rewrite IH by (cbn [List.length]; lia).
      cbn [List.length].
      replace (List.length batch + S (List.length rest) + size - 1)%nat
        with (1 * size + (0 + List.length rest + size - 1))%nat by lia.
      rewrite Nat.div_add_l by lia. lia.
    + rewrite IH by (rewrite length_app; cbn [List.length]; lia).
      rewrite length_app. cbn [List.length]. f_equal. lia.
Qed.

Lemma fetch_examples_length (ds : SarcasmDataset) (indices : list nat) :
  forall es, fetch_examples ds indices = inr es -> List.length es = List.length indices.
Proof.
  induction indices as [|i rest IH]; intros es; simpl.
  - intros [= <-]. reflexivity.
  - destruct (SarcasmDataset_getitem ds (Z.of_nat i)); simpl; [discriminate|].
    destruct (fetch_examples ds rest) as [|es']; simpl; [discriminate|].
    intros [= <-]. simpl. f_equal. apply IH. reflexivity.
Qed.

Lemma fetch_labels_length (ds : SarcasmDataset) (indices : list nat) (b : Batch) :
  fetch ds indices = inr b -> List.length (batch_labels b) = List.length indices.
Proof.
  unfold fetch. destruct (fetch_examples ds indices) as [|es] eqn:He; simpl;
    [discriminate|].
  unfold collate.
  destruct (stack (map input_ids es)); simpl; [discriminate|].
  destruct (stack (map attention_mask es)); simpl; [discriminate|].
  intros [= <-]. simpl. rewrite length_map.
  apply (fetch_examples_length _ _ _ He).
Qed.

Lemma fetched_total (ds : SarcasmDataset) (chunks : list (list nat)) :
  forall bs, map (fetch ds) chunks = map inr bs ->
    total_examples bs = List.length (List.concat chunks).
Proof.
  induction chunks as [|c chunks IH]; intros [|b bs]; simpl; try discriminate.
  - reflexivity.
  - intros [= Hb Hrest]. unfold total_examples in *. simpl.
    rewrite length_app, (fetch_labels_length _ _ _ Hb), (IH _ Hrest).
    reflexivity.
Qed.

Lemma batches_total (dl : DataLoader) (order : list nat) (bs : list Batch) :
  DataLoader_batches dl order = map inr bs ->
  total_examples bs = List.length order
  /\ ((0 < batch_size dl)%nat ->
      List.length bs = ((List.length order + batch_size dl - 1) / batch_size dl)%nat).
Proof.
  unfold DataLoader_batches. intros Hb. split.
  - rewrite (fetched_total _ _ _ Hb), batch_sampler_concat. reflexivity.
  - intros Hs. rewrite <- (length_map (@inr Py.exn Batch) bs), <- Hb, length_map.
    rewrite batch_sampler_length by (simpl; lia). reflexivity.
Qed.

(** ** The loops *)

Lemma count_correct_hits (outputs : list (list Q)) (labs : list Z) :
  count_correct outputs labs = Z.of_nat (hits (map argmax outputs) labs).
Proof.
  unfold count_correct. f_equal.
  revert labs. induction outputs as [|o os IH]; intros [|l ls]; simpl; try reflexivity.
  destruct (Z.eqb (argmax o) l); simpl; rewrite IH; reflexivity.
Qed.

Lemma hits_le (preds labs : list Z) : (hits preds labs <= List.length labs)%nat.
Proof.
  revert labs. induction preds as [|p ps IH]; intros [|l ls]; simpl; try lia.
  specialize (IH ls). destruct (Z.eqb p l); lia.
Qed.

Section LoopFacts.

Context `{T : Torch}.

Ltac fields := cbn [params training grads opt_state rng trace
                    pr_params pr_grads pr_opt pr_rng pr_loss pr_correct].

Lemma correct_examples_le (p : Params) (bs : list Batch) :
  (correct_examples p bs <= total_examples bs)%nat.
Proof.
  unfold correct_examples, total_examples.
  induction bs as [|b bs IH]; simpl; [lia|].
  pose proof (hits_le (predictions p None b) (batch_labels b)). lia.
Qed.

Lemma train_batches_spec (bs : list Batch) :
  forall (rt : Runtime) (tl : Q) (tc : Z),
    training rt = true ->
    train_batches (map inr bs) tl tc rt =
      (let s := training_epoch
                  (mkProgress (params rt) (grads rt) (opt_state rt) (rng rt) tl tc) bs in
       (inr (pr_loss s, pr_correct s),
        mkRuntime (pr_params s) true (pr_grads s) (pr_opt s) (pr_rng s)
          (trace rt ++ flat_map batch_events bs))).
Proof.
  induction bs as [|b bs IH]; intros [p m g o r tr] tl tc Hm; simpl in Hm; subst m.
  - simpl. rewrite app_nil_r. reflexivity.
  - cbn [map train_batches]. unfold Py.bind at 1. cbn [Py.lift_result].
    unfold Py.bind, zero_grad, call_model, backward, optimizer_step, log,
      Py.modify, Py.gets, Py.ret, Py.bind.
    fields.
    destruct (draw_mask r) as [mk r'] eqn:Hd. fields.
    destruct (adamw o p (gradient p (Some mk) b)) as [o' p'] eqn:Ha. fields.
    rewrite IH by reflexivity. fields.
    assert (Hs : training_step (mkProgress p g o r tl tc) b
                 = mkProgress p' (Some (gradient p (Some mk) b)) o' r'
                     (tl + criterion (forward p (Some mk) (batch_input_ids b)
                                        (batch_attention_mask b)) (batch_labels b))
                     (tc + count_correct (forward p (Some mk) (batch_input_ids b)
                                            (batch_attention_mask b)) (batch_labels b))).
    { unfold training_step. fields. rewrite Hd, Ha. unfold logits.
      rewrite count_correct_hits. reflexivity. }
    cbn [training_epoch fold_left]. rewrite Hs.
    cbn [flat_map batch_events app]. rewrite <- !app_assoc. reflexivity.
Qed.

Lemma evaluate_batches_spec (bs : list Batch) :
  forall (rt : Runtime) (tl : Q) (tc : Z),
    training rt = false ->
    evaluate_batches (map inr bs) tl tc rt =
      (inr (loss_sum (params rt) bs tl,
            (tc + Z.of_nat (correct_examples (params rt) bs))%Z),
       mkRuntime (params rt) false (grads rt) (opt_state rt) (rng rt)
         (trace rt ++ map (EvForward false) bs)).
Proof.
  induction bs as [|b bs IH]; intros [p m g o r tr] tl tc Hm; simpl in Hm; subst m.
  - simpl. rewrite app_nil_r, Z.add_0_r. reflexivity.
  - cbn [map evaluate_batches]. unfold Py.bind at 1. cbn [Py.lift_result].
    unfold Py.bind, call_model, log, Py.modify, Py.gets, Py.ret, Py.bind. fields.
    rewrite IH by reflexivity. fields.
    unfold loss_sum, correct_examples, predictions, logits. cbn [fold_left map list_sum].
    rewrite count_correct_hits. unfold list_sum. cbn [fold_right].
    rewrite Nat2Z.inj_add, Z.add_assoc, <- app_assoc. reflexivity.
Qed.

(** Whatever the batches, and whether or not one fails, the evaluation
    loop leaves everything but the ghost trace as it found it. *)
Lemma evaluate_batches_frame (todo : list (Py.result Batch)) :
  forall (rt : Runtime) (tl : Q) (tc : Z),
    training rt = false ->
    exists tr,
      snd (evaluate_batches todo tl tc rt)
      = mkRuntime (params rt) false (grads rt) (opt_state rt) (rng rt) tr.
Proof.
  induction todo as [|[e|b] todo IH]; intros [p m g o r tr] tl tc Hm;
    simpl in Hm; subst m.
  - eexists. reflexivity.
  - eexists. reflexivity.
  - cbn [evaluate_batches]. unfold Py.bind at 1. cbn [Py.lift_result].
    unfold Py.bind, call_model, log, Py.modify, Py.gets, Py.ret, Py.bind. fields.
    match goal with
    | |- context [evaluate_batches todo ?a ?b ?r] =>
        destruct (IH r a b eq_refl) as (tr' & Htr);
        destruct (evaluate_batches todo a b r) as [[e|v] rt'] eqn:He
    end; simpl in *; subst; eexists; reflexivity.
Qed.

(** In evaluation mode the value of the loop depends on the parameters
    only. *)
Lemma evaluate_batches_value (todo : list (Py.result Batch)) :
  forall (rt ra : Runtime) (tl : Q) (tc : Z),
    training rt = false -> training ra = false -> params rt = params ra ->
    fst (evaluate_batches todo tl tc rt) = fst (evaluate_batches todo tl tc ra).
Proof.
  induction todo as [|[e|b] todo IH];
    intros [p m g o r tr] [p2 m2 g2 o2 r2 tr2] tl tc Hm Hm2 Hp;
    simpl in Hm, Hm2, Hp; subst m m2 p2.
  - reflexivity.
  - reflexivity.
  - cbn [evaluate_batches]. unfold Py.bind at 1 3. cbn [Py.lift_result].
    unfold Py.bind, call_model, log, Py.modify, Py.gets, Py.ret, Py.bind. fields.
    match goal with
    | |- context [evaluate_batches todo ?a ?b (mkRuntime p false g o r ?t)] =>
        match goal with
        | |- context [evaluate_batches todo a b (mkRuntime p false g2 o2 r2 ?t')] =>
            specialize (IH (mkRuntime p false g o r t) (mkRuntime p false g2 o2 r2 t')
                          a b eq_refl eq_refl eq_refl);
            destruct (evaluate_batches todo a b (mkRuntime p false g o r t))
              as [[e|v] rt'];
            destruct (evaluate_batches todo a b (mkRuntime p false g2 o2 r2 t'))
              as [[e'|v'] rt'']
        end
    end; simpl in *; congruence.
Qed.

End LoopFacts.

Section LoopTheorems.

Context `{T : Torch}.

Ltac fields := cbn [params training grads opt_state rng trace
                    pr_params pr_grads pr_opt pr_rng pr_loss pr_correct].

Lemma DataLoader_iter_run (dl : DataLoader) (rt : Runtime) :
  DataLoader_iter dl rt =
    (inr (DataLoader_batches dl (fst (drawn_order dl (rng rt)))),
     mkRuntime (params rt) (training rt) (grads rt) (opt_state rt)
       (snd (drawn_order dl (rng rt))) (trace rt)).
Proof.
  destruct rt as [p m g o r tr].
  unfold DataLoader_iter, drawn_order, Py.bind, Py.ret.
  destruct (shuffle dl); simpl; [destruct (randperm r _)|]; reflexivity.
Qed.

Lemma yields_inv (dl : DataLoader) (rt rt' : Runtime) (bs : list Batch) :
  yields dl rt bs rt' ->
  DataLoader_batches dl (fst (drawn_order dl (rng rt))) = map inr bs
  /\ rng rt' = snd (drawn_order dl (rng rt)).
Proof.
  unfold yields. rewrite DataLoader_iter_run. intros [= Hb <-]. auto.
Qed.

Lemma drawn_order_length (dl : DataLoader) (r : Rng) :
  randperm_permutes ->
  List.length (fst (drawn_order dl r)) = SarcasmDataset_len (dataset dl).
Proof.
  intros Hp. unfold drawn_order. destruct (shuffle dl); simpl.
  - rewrite (Permutation_length (Hp r _)). apply length_seq.
  - apply length_seq.
Qed.

(** A pass hands out as many batches as [len(dataloader)] says, and they
    hold each example of the dataset once. *)
Lemma yields_counts (dl : DataLoader) (rt rt' : Runtime) (bs : list Batch) :
  randperm_permutes -> (0 < batch_size dl)%nat -> yields dl rt bs rt' ->
  List.length bs = DataLoader_len dl
  /\ total_examples bs = SarcasmDataset_len (dataset dl).
Proof.
  intros Hp Hs Hy. destruct (yields_inv _ _ _ _ Hy) as [Hb _].
  destruct (batches_total _ _ _ Hb) as [Ht Hl].
  rewrite (drawn_order_length dl (rng rt) Hp) in *.
  split; [exact (Hl Hs) | exact Ht].
Qed.

Lemma yields_nonempty (dl : DataLoader) (rt rt' : Runtime) (bs : list Batch) :
  randperm_permutes -> (0 < batch_size dl)%nat -> yields dl rt bs rt' ->
  bs <> [] ->
  (0 < DataLoader_len dl)%nat /\ (0 < SarcasmDataset_len (dataset dl))%nat.
Proof.
  intros Hp Hs Hy Hne. destruct (yields_counts _ _ _ _ Hp Hs Hy) as [Hl Ht].
  assert (Hpos : (0 < DataLoader_len dl)%nat).
  { rewrite <- Hl. destruct bs; [congruence | simpl; lia]. }
  split; [exact Hpos|].
  unfold DataLoader_len in Hpos.
  destruct (SarcasmDataset_len (dataset dl)); [|lia].
  rewrite Nat.div_small in Hpos by lia. lia.
Qed.

Lemma train_run (dl : DataLoader) (rt : Runtime) :
  train dl rt =
    match train_batches (DataLoader_batches dl (fst (drawn_order dl (rng rt)))) 0 0
            (mkRuntime (params rt) true (grads rt) (opt_state rt)
               (snd (drawn_order dl (rng rt))) (trace rt)) with
    | (inl e, rt2) => (inl e, rt2)
    | (inr totals, rt2) => (metrics dl (fst totals) (snd totals), rt2)
    end.
Proof.
  unfold train. unfold Py.bind at 1. unfold set_mode, Py.modify.
  unfold Py.bind at 1. rewrite DataLoader_iter_run. fields.
  unfold Py.bind at 1.
  destruct (train_batches _ 0 0 _) as [[e|[tl tc]] rt2]; [reflexivity|].
  unfold metrics, Py.bind, Py.lift_result, Py.ret, Py.rbind, Py.ok. simpl.
  destruct (Py.truediv tl (DataLoader_len dl)); [reflexivity|].
  destruct (Py.truediv (inject_Z tc) _); reflexivity.
Qed.

Lemma evaluate_run (dl : DataLoader) (rt : Runtime) :
  evaluate dl rt =
    match evaluate_batches (DataLoader_batches dl (fst (drawn_order dl (rng rt)))) 0 0
            (mkRuntime (params rt) false (grads rt) (opt_state rt)
               (snd (drawn_order dl (rng rt))) (trace rt)) with
    | (inl e, rt2) => (inl e, rt2)
    | (inr totals, rt2) => (metrics dl (fst totals) (snd totals), rt2)
    end.
Proof.
  unfold evaluate. unfold Py.bind at 1. unfold set_mode, Py.modify.
  unfold Py.bind at 1. rewrite DataLoader_iter_run. fields.
  unfold Py.bind at 1.
  destruct (evaluate_batches _ 0 0 _) as [[e|[tl tc]] rt2]; [reflexivity|].
  unfold metrics, Py.bind, Py.lift_result, Py.ret, Py.rbind, Py.ok. simpl.
  destruct (Py.truediv tl (DataLoader_len dl)); [reflexivity|].
  destruct (Py.truediv (inject_Z tc) _); reflexivity.
Qed.

Lemma truediv_pos (x : Q) (n : nat) :
  (0 < n)%nat -> Py.truediv x n = inr (x / inject_Z (Z.of_nat n)).
Proof. destruct n; [lia | reflexivity]. Qed.

Lemma metrics_pos (dl : DataLoader) (tl : Q) (tc : Z) :
  (0 < DataLoader_len dl)%nat -> (0 < SarcasmDataset_len (dataset dl))%nat ->
  metrics dl tl tc =
    inr (tl / inject_Z (Z.of_nat (DataLoader_len dl)),
         inject_Z tc / inject_Z (Z.of_nat (SarcasmDataset_len (dataset dl)))).
Proof.
  intros Hl Hn. unfold metrics. rewrite !truediv_pos by assumption. reflexivity.
Qed.

Lemma ratio_bounds (c n : nat) :
  (0 < n)%nat -> (c <= n)%nat ->
  0 <= inject_Z (Z.of_nat c) / inject_Z (Z.of_nat n)
  /\ inject_Z (Z.of_nat c) / inject_Z (Z.of_nat n) <= 1.
Proof.
  intros Hn Hc.
  assert (Hpos : 0 < inject_Z (Z.of_nat n)).
  { change 0 with (inject_Z 0). rewrite <- Zlt_Qlt. lia. }
  split.
  - apply Qle_shift_div_l; [exact Hpos|]. rewrite Qmult_0_l.
    change 0 with (inject_Z 0). rewrite <- Zle_Qle. lia.
  - apply Qle_shift_div_r; [exact Hpos|]. rewrite Qmult_1_l.
    rewrite <- Zle_Qle. lia.
Qed.

(** The result of [evaluate] on a pass that hands out [bs]. *)
Lemma evaluate_yields (dl : DataLoader) (rt rt0 : Runtime) (bs : list Batch) :
  randperm_permutes -> (0 < batch_size dl)%nat -> bs <> [] ->
  yields dl rt bs rt0 ->
  evaluate dl rt =
    (inr (loss_sum (params rt) bs 0 / inject_Z (Z.of_nat (DataLoader_len dl)),
          inject_Z (Z.of_nat (correct_examples (params rt) bs))
          / inject_Z (Z.of_nat (SarcasmDataset_len (dataset dl)))),
     mkRuntime (params rt) false (grads rt) (opt_state rt) (rng rt0)
       (trace rt ++ map (EvForward false) bs)).
Proof.
  intros Hp Hs Hne Hy.
  destruct (yields_nonempty _ _ _ _ Hp Hs Hy Hne) as [Hl Hn].
  destruct (yields_inv _ _ _ _ Hy) as [Hb Hr].
  rewrite evaluate_run, Hb, evaluate_batches_spec by reflexivity. fields.
  cbn [fst snd]. rewrite metrics_pos by assumption. rewrite Hr. reflexivity.
Qed.

(** The result of [train] on a pass that hands out [bs]. *)
Lemma train_yields (dl : DataLoader) (rt rt0 : Runtime) (bs : list Batch) :
  randperm_permutes -> (0 < batch_size dl)%nat -> bs <> [] ->
  yields dl rt bs rt0 ->
  let s := training_epoch
             (mkProgress (params rt) (grads rt) (opt_state rt) (rng rt0) 0 0) bs in
  train dl rt =
    (inr (pr_loss s / inject_Z (Z.of_nat (DataLoader_len dl)),
          inject_Z (pr_correct s)
          / inject_Z (Z.of_nat (SarcasmDataset_len (dataset dl)))),
     mkRuntime (pr_params s) true (pr_grads s) (pr_opt s) (pr_rng s)
       (trace rt ++ flat_map batch_events bs)).
Proof.
  intros Hp Hs Hne Hy.
  destruct (yields_nonempty _ _ _ _ Hp Hs Hy Hne) as [Hl Hn].
  destruct (yields_inv _ _ _ _ Hy) as [Hb Hr].
  rewrite train_run, Hb, train_batches_spec by reflexivity. fields.
  cbn [fst snd]. rewrite metrics_pos by assumption. rewrite Hr. reflexivity.
Qed.

End LoopTheorems.

(** ** Facts about the small world *)

Lemma toy_randperm : randperm_permutes (T := Toy.torch).
Proof. intros r n. simpl. apply Permutation_sym, Permutation_rev. Qed.

Lemma toy_val_yields :
  yields (T := Toy.torch) Toy.val_loader (Toy.runtime0 0) [Toy.batch_ab]
    (Toy.runtime0 0).
Proof. reflexivity. Qed.

(** ** The evaluation loop *)

(** C2, with examples counted in place of batches.  On every pass that
    hands out at least one batch, [evaluate] returns an accuracy that is
    the number of examples whose arg-max prediction is their label, over
    the number of examples, and that lies between 0 and 1. *)
Theorem evaluate_accuracy `{T : Torch} (dl : DataLoader) (rt rt0 : Runtime)
    (bs : list Batch) :
  randperm_permutes -> (0 < batch_size dl)%nat -> bs <> [] ->
  yields dl rt bs rt0 ->
  exists loss acc rt',
    evaluate dl rt = (inr (loss, acc), rt')
    /\ acc = inject_Z (Z.of_nat (correct_examples (params rt) bs))
             / inject_Z (Z.of_nat (total_examples bs))
    /\ 0 <= acc /\ acc <= 1.
Proof.
  intros Hp Hs Hne Hy.
  destruct (yields_counts _ _ _ _ Hp Hs Hy) as [_ Ht].
  destruct (yields_nonempty _ _ _ _ Hp Hs Hy Hne) as [_ Hn].
  rewrite (evaluate_yields _ _ _ _ Hp Hs Hne Hy), <- Ht.
  do 3 eexists. split; [reflexivity|]. split; [reflexivity|].
  apply ratio_bounds; [lia | apply correct_examples_le].
Qed.

Lemma evaluate_accuracy_witness :
  exists loss acc rt',
    evaluate (T := Toy.torch) Toy.val_loader (Toy.runtime0 0) = (inr (loss, acc), rt')
    /\ acc = inject_Z (Z.of_nat (correct_examples (T := Toy.torch) 0%Z [Toy.batch_ab]))
             / inject_Z (Z.of_nat (total_examples [Toy.batch_ab]))
    /\ 0 <= acc /\ acc <= 1.
Proof.
  apply (evaluate_accuracy (T := Toy.torch) Toy.val_loader (Toy.runtime0 0)
           (Toy.runtime0 0) [Toy.batch_ab]).
  - exact toy_randperm.
  - simpl. lia.
  - discriminate.
  - reflexivity.
Defined.

(** C2 as stated fails: one batch of two examples, both predicted right,
    gives the accuracy 1, while the batches whose predictions equal their
    labels are one out of two examples. *)
Lemma evaluate_accuracy_counterexample :
  fst (evaluate (T := Toy.torch) Toy.val_loader (Toy.runtime0 0)) = inr (0, 2 # 2)
  /\ correct_batches (T := Toy.torch) 0%Z [Toy.batch_ab] = 1%nat
  /\ total_examples [Toy.batch_ab] = 2%nat
  /\ ~ (2 # 2 == inject_Z (Z.of_nat (correct_batches (T := Toy.torch) 0%Z [Toy.batch_ab]))
               / inject_Z (Z.of_nat (total_examples [Toy.batch_ab]))).
Proof.
  split; [reflexivity|]. split; [reflexivity|]. split; [reflexivity|].
  vm_compute. discriminate.
Qed.

Lemma evaluate_value `{T : Torch} (dl : DataLoader) (rt : Runtime) :
  fst (evaluate dl rt) =
    match fst (evaluate_batches
                 (DataLoader_batches dl (fst (drawn_order dl (rng rt)))) 0 0
                 (mkRuntime (params rt) false (grads rt) (opt_state rt)
                    (snd (drawn_order dl (rng rt))) (trace rt))) with
    | inl e => inl e
    | inr totals => metrics dl (fst totals) (snd totals)
    end.
Proof.
  rewrite evaluate_run.
  destruct (evaluate_batches _ 0 0 _) as [[e|t] rt2]; reflexivity.
Qed.

Lemma evaluate_frame `{T : Torch} (dl : DataLoader) (rt : Runtime) :
  exists tr,
    snd (evaluate dl rt)
    = mkRuntime (params rt) false (grads rt) (opt_state rt)
        (snd (drawn_order dl (rng rt))) tr.
Proof.
  rewrite evaluate_run.
  match goal with
  | |- context [evaluate_batches ?todo 0 0 ?r] =>
      destruct (evaluate_batches_frame todo r 0 0 eq_refl) as (tr & Htr);
      destruct (evaluate_batches todo 0 0 r) as [[e|t] rt2]
  end; simpl in *; subst; eexists; reflexivity.
Qed.

Lemma unshuffled_same_order `{T : Torch} (dl : DataLoader) (r : Rng) :
  shuffle dl = false -> same_order_again dl r.
Proof.
  intros Hs. unfold same_order_again, drawn_order. rewrite Hs. reflexivity.
Qed.

(** C3.  [evaluate] leaves the parameters, the accumulated gradients and
    the optimizer as it found them, whether it returns or raises; and when
    a second call right after the first sees the same batch sequence (as
    with every loader that does not shuffle), it has the same outcome, the
    same pair of loss and accuracy, and again leaves the parameters
    alone. *)
Theorem evaluate_preserves_parameters `{T : Torch} (dl : DataLoader) (rt : Runtime) :
  params (snd (evaluate dl rt)) = params rt
  /\ grads (snd (evaluate dl rt)) = grads rt
  /\ opt_state (snd (evaluate dl rt)) = opt_state rt
  /\ (same_order_again dl (rng rt) ->
      fst (evaluate dl (snd (evaluate dl rt))) = fst (evaluate dl rt)
      /\ params (snd (evaluate dl (snd (evaluate dl rt)))) = params rt).
Proof.
  destruct (evaluate_frame dl rt) as (tr & Hrt). rewrite Hrt.
  cbn [params grads opt_state].
  split; [reflexivity|]. split; [reflexivity|]. split; [reflexivity|].
  intros Hsame. split.
  - rewrite !evaluate_value. cbn [params grads opt_state rng trace].
    unfold same_order_again in Hsame. rewrite Hsame.
    rewrite (evaluate_batches_value _
               (mkRuntime (params rt) false (grads rt) (opt_state rt)
                  (snd (drawn_order dl (snd (drawn_order dl (rng rt))))) tr)
               (mkRuntime (params rt) false (grads rt) (opt_state rt)
                  (snd (drawn_order dl (rng rt))) (trace rt))
               0 0 eq_refl eq_refl eq_refl).
    reflexivity.
  - destruct (evaluate_frame dl
                (mkRuntime (params rt) false (grads rt) (opt_state rt)
                   (snd (drawn_order dl (rng rt))) tr)) as (tr2 & ->).
    reflexivity.
Qed.

Lemma evaluate_preserves_parameters_witness :
  params (snd (evaluate (T := Toy.torch) Toy.val_loader (Toy.runtime0 0))) = 0%Z
  /\ fst (evaluate (T := Toy.torch) Toy.val_loader
            (snd (evaluate (T := Toy.torch) Toy.val_loader (Toy.runtime0 0))))
     = fst (evaluate (T := Toy.torch) Toy.val_loader (Toy.runtime0 0)).
Proof.
  pose proof (evaluate_preserves_parameters (T := Toy.torch) Toy.val_loader
                (Toy.runtime0 0)) as (Hp & _ & _ & Hs).
  split; [exact Hp|].
  apply Hs. reflexivity.
Defined.

(** ** The training loop *)

Lemma toy_train_yields :
  yields (T := Toy.torch) Toy.train_loader (Toy.runtime0 0)
    [Toy.batch_ba]
    (mkRuntime (H := Toy.torch) 0%Z false None 0%nat 1%nat []).
Proof. reflexivity. Qed.

(** C4, for a pass of at least one batch.  On a pass that hands out the
    batches [bs], not none, one epoch of [train]
    is the state machine of the contract: batch after batch, logits from
    the head, the loss against the labels, the gradient of that batch
    alone (what was accumulated before is cleared first), one optimizer
    step with it; the trace shows, for each batch in turn, the clearing,
    the forward pass, the backward pass and the single step.  The pair
    returned is the loss sum over the number of batches and the count of
    correct predictions over the number of examples. *)
Theorem train_epoch_contract `{T : Torch} (dl : DataLoader) (rt rt0 : Runtime)
    (bs : list Batch) :
  randperm_permutes -> (0 < batch_size dl)%nat -> bs <> [] ->
  yields dl rt bs rt0 ->
  let s := training_epoch
             (mkProgress (params rt) (grads rt) (opt_state rt) (rng rt0) 0 0) bs in
  train dl rt =
    (inr (pr_loss s / inject_Z (Z.of_nat (List.length bs)),
          inject_Z (pr_correct s) / inject_Z (Z.of_nat (total_examples bs))),
     mkRuntime (pr_params s) true (pr_grads s) (pr_opt s) (pr_rng s)
       (trace rt ++ flat_map batch_events bs)).
Proof.
  intros Hp Hs Hne Hy s.
  destruct (yields_counts _ _ _ _ Hp Hs Hy) as [Hl Ht].
  rewrite Hl, Ht. exact (train_yields _ _ _ _ Hp Hs Hne Hy).
Qed.

Lemma train_epoch_contract_witness :
  fst (train (T := Toy.torch) Toy.train_loader (Toy.runtime0 0)) = inr (0 / 1, 2 / 2)
  /\ params (snd (train (T := Toy.torch) Toy.train_loader (Toy.runtime0 0))) = 1%Z.
Proof.
  pose proof (train_epoch_contract (T := Toy.torch) Toy.train_loader (Toy.runtime0 0)
                (mkRuntime (H := Toy.torch) 0%Z false None 0%nat 1%nat [])
                [Toy.batch_ba] toy_randperm ltac:(simpl; lia) ltac:(discriminate)
                toy_train_yields) as H.
  split; [exact (f_equal fst H) | exact (f_equal (fun x => params (snd x)) H)].
Defined.

(** C4 as stated fails: on the empty batch sequence [train] returns no
    pair, it raises. *)
Lemma train_epoch_contract_counterexample :
  yields (T := Toy.torch) (mkDataLoader Toy.empty 2 false) (Toy.runtime0 0) []
    (Toy.runtime0 0)
  /\ fst (train (T := Toy.torch) (mkDataLoader Toy.empty 2 false) (Toy.runtime0 0))
     = inl Py.ZeroDivisionError.
Proof. split; reflexivity. Qed.

(** C9.  Both loops close with the same two divisions, the loss sum by
    [len(dataloader)] and the correct count by [len(dataloader.dataset)].
    On an empty dataset both raise [ZeroDivisionError]; on a pass that
    hands out at least one batch both divisors are positive and both
    loops return their pair. *)
Theorem metric_divisions `{T : Torch} (dl : DataLoader) (rt : Runtime) :
  randperm_permutes -> (0 < batch_size dl)%nat ->
  (SarcasmDataset_len (dataset dl) = 0%nat ->
     fst (train dl rt) = inl Py.ZeroDivisionError
     /\ fst (evaluate dl rt) = inl Py.ZeroDivisionError)
  /\ (forall bs rt0, bs <> [] -> yields dl rt bs rt0 ->
        (0 < DataLoader_len dl)%nat
        /\ (0 < SarcasmDataset_len (dataset dl))%nat
        /\ fst (train dl rt)
           = inr (pr_loss (training_epoch
                             (mkProgress (params rt) (grads rt) (opt_state rt)
                                (rng rt0) 0 0) bs)
                  / inject_Z (Z.of_nat (DataLoader_len dl)),
                  inject_Z (pr_correct (training_epoch
                             (mkProgress (params rt) (grads rt) (opt_state rt)
                                (rng rt0) 0 0) bs))
                  / inject_Z (Z.of_nat (SarcasmDataset_len (dataset dl))))
        /\ fst (evaluate dl rt)
           = inr (loss_sum (params rt) bs 0
                  / inject_Z (Z.of_nat (DataLoader_len dl)),
                  inject_Z (Z.of_nat (correct_examples (params rt) bs))
                  / inject_Z (Z.of_nat (SarcasmDataset_len (dataset dl))))).
Proof.
  intros Hp Hs. split.
  - intros Hz.
    assert (Ho : fst (drawn_order dl (rng rt)) = []).
    { apply length_zero_iff_nil. rewrite (drawn_order_length _ _ Hp). exact Hz. }
    assert (Hl : DataLoader_len dl = 0%nat).
    { unfold DataLoader_len. rewrite Hz. apply Nat.div_small. lia. }
    rewrite train_run, evaluate_run, Ho.
    unfold DataLoader_batches, metrics. simpl. rewrite Hl. simpl. auto.
  - intros bs rt0 Hne Hy.
    destruct (yields_nonempty _ _ _ _ Hp Hs Hy Hne) as [Hl Hn].
    split; [exact Hl|]. split; [exact Hn|].
    rewrite (train_yields _ _ _ _ Hp Hs Hne Hy).
    rewrite (evaluate_yields _ _ _ _ Hp Hs Hne Hy).
    split; reflexivity.
Qed.

Lemma metric_divisions_witness :
  (fst (train (T := Toy.torch) (mkDataLoader Toy.empty 2 false) (Toy.runtime0 0))
   = inl Py.ZeroDivisionError
   /\ fst (evaluate (T := Toy.torch) (mkDataLoader Toy.empty 2 false) (Toy.runtime0 0))
      = inl Py.ZeroDivisionError)
  /\ (0 < DataLoader_len Toy.val_loader)%nat.
Proof.
  split.
  - apply (proj1 (metric_divisions (T := Toy.torch) (mkDataLoader Toy.empty 2 false)
                    (Toy.runtime0 0) toy_randperm ltac:(simpl; lia))).
    reflexivity.
  - apply (proj2 (metric_divisions (T := Toy.torch) Toy.val_loader
                    (Toy.runtime0 0) toy_randperm ltac:(simpl; lia))
             [Toy.batch_ab] (Toy.runtime0 0)).
    + discriminate.
    + reflexivity.
Defined.

(** ** The example scenario *)







(** ** The checkpoint policy *)

Lemma Qltb_lt (x y : Q) : Qltb x y = true <-> x < y.
Proof.
  unfold Qltb. destruct (Qlt_le_dec x y) as [H | H]; split; intros H'; auto.
  - discriminate.
  - exfalso. exact (Qlt_not_le _ _ H' H).
Qed.

Lemma exceedsb_exceeds (base : Q) (accs : list Q) (k : nat) :
  exceedsb base accs k = true <-> exceeds base accs k.
Proof.
  unfold exceedsb, exceeds. rewrite andb_true_iff, Qltb_lt, forallb_forall.
  split; intros [Hb Hj]; split; auto.
  - intros j Hlt. apply Qltb_lt, Hj, in_seq. lia.
  - intros j Hin. apply Qltb_lt, Hj. apply in_seq in Hin. lia.
Qed.

(** Moving past the first epoch: the accumulator has taken the larger of
    its value and that epoch's accuracy. *)
Lemma exceeds_cons (base v : Q) (accs : list Q) (k : nat) :
  exceeds base (v :: accs) (S k)
  <-> exceeds (if Qlt_le_dec base v then v else base) accs k.
Proof.
  unfold exceeds. cbn [nth].
  destruct (Qlt_le_dec base v) as [Hlt | Hle]; split; intros [Hb Hj]; split.
  - exact (Hj 0%nat ltac:(lia)).
  - intros j Hlt'. exact (Hj (S j) ltac:(lia)).
  - exact (Qlt_trans _ _ _ Hlt Hb).
  - intros [|j] Hlt'; [exact Hb | apply Hj; lia].
  - exact Hb.
  - intros j Hlt'. exact (Hj (S j) ltac:(lia)).
  - exact Hb.
  - intros [|j] Hlt'; [exact (Qle_lt_trans _ _ _ Hle Hb) | apply Hj; lia].
Qed.

Section PolicyFacts.

Context `{T : Torch}.

Lemma policy_val_accuracies (obs : list Observation) :
  forall best, val_accuracies (policy_journal best obs) = map observed_accuracy obs.
Proof.
  induction obs as [|[[[[a b] c] v] p] obs IH]; intros best; simpl; [reflexivity|].
  destruct (Qlt_le_dec best v); simpl; rewrite IH; reflexivity.
Qed.

Lemma policy_leading_saves (obs : list Observation) (best : Q) :
  leading_saves (policy_journal best obs) = [].
Proof.
  destruct obs as [|[[[[a b] c] v] p] obs]; simpl; [reflexivity|].
  destruct (Qlt_le_dec best v); reflexivity.
Qed.

Lemma policy_persisted (obs : list Observation) :
  forall best k, (k < List.length obs)%nat ->
    (persisted_at (policy_journal best obs) k
     <-> exceeds best (map observed_accuracy obs) k).
Proof.
  unfold persisted_at.
  induction obs as [|[[[[a b] c] v] p] obs IH]; intros best k Hk; simpl in Hk;
    [lia|].
  destruct k as [|k].
  - cbn [policy_journal map]. unfold exceeds, observed_accuracy. cbn [nth fst snd].
    destruct (Qlt_le_dec best v) as [Hlt | Hle]; cbn [saves_by_epoch leading_saves nth].
    + rewrite policy_leading_saves. split; [|discriminate].
      intros _. split; [exact Hlt | intros j Hj; lia].
    + rewrite policy_leading_saves. split; [congruence|].
      intros [Hlt _]. exfalso. exact (Qlt_not_le _ _ Hlt Hle).
  - cbn [map]. rewrite exceeds_cons. unfold observed_accuracy at 1. cbn [fst snd].
    cbn [policy_journal].
    destruct (Qlt_le_dec best v); cbn [saves_by_epoch nth]; apply IH; lia.
Qed.

Lemma policy_writes (obs : list Observation) :
  forall best,
    List.length (snapshots (policy_journal best obs))
    = List.length (filter (exceedsb best (map observed_accuracy obs))
                     (seq 0 (List.length obs))).
Proof.
  induction obs as [|[[[[a b] c] v] p] obs IH]; intros best; [reflexivity|].
  cbn [List.length seq map filter]. rewrite <- seq_shift.
  assert (Htail : forall l,
            List.length (filter (exceedsb best (v :: map observed_accuracy obs))
                           (map S l))
            = List.length (filter (exceedsb (if Qlt_le_dec best v then v else best)
                                     (map observed_accuracy obs)) l)).
  { induction l as [|k l IHl]; [reflexivity|]. cbn [map filter].
    assert (He : exceedsb best (v :: map observed_accuracy obs) (S k)
                 = exceedsb (if Qlt_le_dec best v then v else best)
                     (map observed_accuracy obs) k).
    { apply eq_true_iff_eq. rewrite !exceedsb_exceeds. apply exceeds_cons. }
    rewrite He. destruct (exceedsb _ _ k); cbn [List.length]; rewrite IHl;
      reflexivity. }
  unfold observed_accuracy at 1. cbn [fst snd].
  assert (H0 : exceedsb best (v :: map observed_accuracy obs) 0 = Qltb best v).
  { unfold exceedsb. cbn [nth seq forallb]. apply andb_true_r. }
  rewrite H0. unfold Qltb. cbn [policy_journal].
  destruct (Qlt_le_dec best v); cbn [snapshots List.length]; rewrite Htail, IH;
    reflexivity.
Qed.

End PolicyFacts.

Lemma running_best_ge (accs : list Q) :
  forall best, best <= running_best best accs.
Proof.
  unfold running_best. induction accs as [|v accs IH]; intros best; simpl.
  - apply Qle_refl.
  - destruct (Qlt_le_dec best v) as [Hlt | Hle]; [|apply IH].
    apply Qle_trans with v; [apply Qlt_le_weak, Hlt | apply IH].
Qed.

Lemma running_best_bounds (accs : list Q) :
  forall best a, In a accs -> a <= running_best best accs.
Proof.
  unfold running_best. induction accs as [|v accs IH]; intros best a; simpl;
    [intros []|].
  intros [<- | Hin]; [|apply IH, Hin].
  destruct (Qlt_le_dec best v) as [Hlt | Hle].
  - apply (running_best_ge accs v).
  - apply Qle_trans with best; [exact Hle | apply (running_best_ge accs best)].
Qed.

Lemma running_best_attained (accs : list Q) :
  forall best, running_best best accs = best \/ In (running_best best accs) accs.
Proof.
  unfold running_best. induction accs as [|v accs IH]; intros best; simpl;
    [left; reflexivity|].
  destruct (Qlt_le_dec best v) as [Hlt | Hle].
  - destruct (IH v) as [-> | Hin]; right; [left; reflexivity | right; exact Hin].
  - destruct (IH best) as [-> | Hin]; [left; reflexivity | right; right; exact Hin].
Qed.

Section MainFacts.

Context `{T : Torch}.

Ltac pfields := cbn [runtime best_accuracy best_model_pt storage_faults journal].

Lemma last_cons {A} (l : list A) (a d : A) : last (a :: l) d = last l a.
Proof.
  revert a d. induction l as [|b l IH]; intros a d; [reflexivity|].
  change (last (a :: b :: l) d) with (last (b :: l) d).
  rewrite !IH. reflexivity.
Qed.

(** The policy when the storage takes the write. *)
Lemma checkpoint_policy_returns (v : Q) (p p' : Process) :
  checkpoint_policy v p = (inr tt, p') ->
  (best_accuracy p < v
   /\ p' = mkProcess (runtime p) v (Saved (params (runtime p)))
             (tl (storage_faults p)) (journal p ++ [JSave (params (runtime p))]))
  \/ (v <= best_accuracy p /\ p' = p).
Proof.
  destruct p as [rt best file faults j].
  unfold checkpoint_policy, Py.bind, Py.gets, set_best_accuracy, Py.modify,
    torch_save, Py.ret.
  pfields.
  destruct (Qlt_le_dec best v) as [Hlt | Hle].
  - destruct faults as [|[| |] later]; pfields; intros H; try discriminate H;
      injection H as <-; left; auto.
  - intros [= <-]. right. auto.
Qed.

(** One epoch that runs to its end adds its block to the journal. *)
Lemma epoch_body_returns (train_loader val_loader : DataLoader) (p p' : Process) :
  epoch_body train_loader val_loader p = (inr tt, p') ->
  exists o : Observation,
    journal p' = journal p ++ policy_journal (best_accuracy p) [o]
    /\ best_accuracy p'
       = (if Qlt_le_dec (best_accuracy p) (observed_accuracy o)
          then observed_accuracy o else best_accuracy p)
    /\ best_model_pt p'
       = last (map Saved (snapshots (policy_journal (best_accuracy p) [o])))
           (best_model_pt p).
Proof.
  destruct p as [rt best file faults j].
  unfold epoch_body. unfold Py.bind at 1. unfold in_runtime at 1. pfields.
  destruct (train train_loader rt) as [[e|tr] rt1]; [discriminate|].
  unfold Py.bind at 1. unfold in_runtime at 1. pfields.
  destruct (evaluate val_loader rt1) as [[e|ev] rt2]; [discriminate|].
  unfold Py.bind at 1. unfold in_runtime at 1, scheduler_step, Py.modify. pfields.
  unfold Py.bind at 1. unfold print_metrics, Py.modify. pfields.
  intros Hc. apply checkpoint_policy_returns in Hc. pfields.
  match type of Hc with
  | context [mkRuntime ?a ?b ?c ?d ?e ?f] => set (rt3 := mkRuntime a b c d e f) in *
  end.
  exists (fst tr, snd tr, fst ev, snd ev, params rt3).
  unfold observed_accuracy. cbn [fst snd policy_journal].
  pfields. destruct Hc as [[Hlt ->] | [Hle ->]]; pfields.
  - destruct (Qlt_le_dec best (snd ev)) as [_ | Hle];
      [| exfalso; exact (Qlt_not_le _ _ Hlt Hle)].
    cbn [snapshots map last]. rewrite <- app_assoc. auto.
  - destruct (Qlt_le_dec best (snd ev)) as [Hlt | _];
      [exfalso; exact (Qlt_not_le _ _ Hlt Hle)|].
    cbn [snapshots map last]. auto.
Qed.

Lemma policy_journal_app (o : Observation) (obs : list Observation) (best : Q) :
  policy_journal best (o :: obs)
  = policy_journal best [o]
    ++ policy_journal (if Qlt_le_dec best (observed_accuracy o)
                       then observed_accuracy o else best) obs.
Proof.
  destruct o as [[[[a b] c] v] p]. unfold observed_accuracy. cbn [fst snd].
  cbn [policy_journal]. destruct (Qlt_le_dec best v); reflexivity.
Qed.

Lemma snapshots_app (j1 j2 : list JournalEntry) :
  snapshots (j1 ++ j2) = snapshots j1 ++ snapshots j2.
Proof.
  induction j1 as [|[a b c v | p] j1 IH]; simpl; rewrite ?IH; reflexivity.
Qed.

Lemma last_app_default {A} (l1 l2 : list A) (d : A) :
  last (l1 ++ l2) d = last l2 (last l1 d).
Proof.
  revert d. induction l1 as [|a l1 IH]; intros d; [reflexivity|].
  change ((a :: l1) ++ l2) with (a :: (l1 ++ l2)).
  rewrite !last_cons. apply IH.
Qed.

(** The epochs of a run that reaches its end journal exactly what the
    policy prescribes for what they observed. *)
Lemma for_range_returns (train_loader val_loader : DataLoader) (n : nat) :
  forall p p',
    for_range n (epoch_body train_loader val_loader) p = (inr tt, p') ->
    exists obs : list Observation,
      List.length obs = n
      /\ journal p' = journal p ++ policy_journal (best_accuracy p) obs
      /\ best_model_pt p'
         = last (map Saved (snapshots (policy_journal (best_accuracy p) obs)))
             (best_model_pt p).
Proof.
  induction n as [|n IH]; intros p p'.
  - intros [= <-]. exists []. simpl. rewrite app_nil_r. auto.
  - cbn [for_range]. unfold Py.bind at 1.
    destruct (epoch_body train_loader val_loader p) as [[e|[]] p1] eqn:Hb;
      [discriminate|].
    intros Hrest.
    destruct (epoch_body_returns _ _ _ _ Hb) as (o & Hj & Hbest & Hfile).
    destruct (IH _ _ Hrest) as (obs & Hlen & Hj' & Hfile').
    exists (o :: obs). split; [simpl; congruence|].
    rewrite policy_journal_app, <- Hbest.
    split.
    + rewrite Hj', Hj, <- app_assoc. reflexivity.
    + rewrite Hfile', Hfile, snapshots_app, map_app, last_app_default.
      reflexivity.
Qed.

Lemma for_range_returns_best (train_loader val_loader : DataLoader) (n : nat) :
  forall p p',
    for_range n (epoch_body train_loader val_loader) p = (inr tt, p') ->
    exists obs : list Observation,
      List.length obs = n
      /\ journal p' = journal p ++ policy_journal (best_accuracy p) obs
      /\ best_model_pt p'
         = last (map Saved (snapshots (policy_journal (best_accuracy p) obs)))
             (best_model_pt p)
      /\ best_accuracy p'
         = running_best (best_accuracy p) (map observed_accuracy obs).
Proof.
  induction n as [|n IH]; intros p p'.
  - intros [= <-]. exists []. simpl. rewrite app_nil_r. auto.
  - cbn [for_range]. unfold Py.bind at 1.
    destruct (epoch_body train_loader val_loader p) as [[e|[]] p1] eqn:Hb;
      [discriminate|].
    intros Hrest.
    destruct (epoch_body_returns _ _ _ _ Hb) as (o & Hj & Hbest & Hfile).
    destruct (IH _ _ Hrest) as (obs & Hlen & Hj' & Hfile' & Hbest').
    exists (o :: obs). split; [simpl; congruence|].
    rewrite policy_journal_app, <- Hbest.
    split; [rewrite Hj', Hj, <- app_assoc; reflexivity|].
    split.
    + rewrite Hfile', Hfile, snapshots_app, map_app, last_app_default.
      reflexivity.
    + rewrite Hbest'. cbn [map]. unfold running_best. cbn [fold_left].
      rewrite <- Hbest. reflexivity.
Qed.

Lemma val_accuracies_app (j1 j2 : list JournalEntry) :
  val_accuracies (j1 ++ j2) = val_accuracies j1 ++ val_accuracies j2.
Proof.
  induction j1 as [|[a b c v | q] j1 IH]; simpl; rewrite ?IH; reflexivity.
Qed.

(** One epoch that reaches its end: the accuracy it prints is the one
    [evaluate] returned on the model [train] left, and the file is
    rewritten with the parameters of that moment exactly when that
    accuracy exceeds the accumulator. *)
Lemma epoch_body_step (train_loader val_loader : DataLoader) (p p' : Process) :
  epoch_body train_loader val_loader p = (inr tt, p') ->
  exists loss v,
    fst (evaluate val_loader (snd (train train_loader (runtime p)))) = inr (loss, v)
    /\ val_accuracies (journal p') = val_accuracies (journal p) ++ [v]
    /\ (best_accuracy p < v ->
        best_accuracy p' = v /\ best_model_pt p' = Saved (params (runtime p')))
    /\ (v <= best_accuracy p ->
        best_accuracy p' = best_accuracy p /\ best_model_pt p' = best_model_pt p).
Proof.
  destruct p as [rt best file faults j].
  unfold epoch_body. unfold Py.bind at 1. unfold in_runtime at 1. pfields.
  destruct (train train_loader rt) as [[e|tr] rt1]; [discriminate|].
  unfold Py.bind at 1. unfold in_runtime at 1. pfields. cbn [snd].
  destruct (evaluate val_loader rt1) as [[e|[loss v]] rt2]; [discriminate|].
  unfold Py.bind at 1. unfold in_runtime at 1, scheduler_step, Py.modify. pfields.
  unfold Py.bind at 1. unfold print_metrics, Py.modify. pfields.
  intros Hc. apply checkpoint_policy_returns in Hc. pfields.
  exists loss, v. cbn [fst snd] in *. split; [reflexivity|].
  destruct Hc as [[Hlt ->] | [Hle ->]]; pfields;
    rewrite val_accuracies_app; cbn [val_accuracies].
  - rewrite val_accuracies_app. cbn [val_accuracies]. rewrite app_nil_r.
    split; [reflexivity|]. split; [auto|].
    intros Hle. exfalso. exact (Qlt_not_le _ _ Hlt Hle).
  - split; [reflexivity|]. split; [|auto].
    intros Hlt. exfalso. exact (Qlt_not_le _ _ Hlt Hle).
Qed.

Lemma for_range_split (body : Py.M Process unit) (k m : nat) :
  forall p,
    for_range (k + m) body p =
      match for_range k body p with
      | (inl e, q) => (inl e, q)
      | (inr _, q) => for_range m body q
      end.
Proof.
  induction k as [|k IH]; intros p; [reflexivity|].
  cbn [Nat.add for_range]. unfold Py.bind.
  destruct (body p) as [[e|[]] p1]; [reflexivity | apply IH].
Qed.

(** The process [main_epochs] hands to its loop. *)
Lemma main_epochs_run (train_loader val_loader : DataLoader) (n : nat) (p : Process) :
  main_epochs train_loader val_loader n p
  = for_range n (epoch_body train_loader val_loader)
      (mkProcess (runtime p) 0 (best_model_pt p) (storage_faults p) (journal p)).
Proof. reflexivity. Qed.

(** A run that reaches its end has reached the end of each of its
    epochs: [q] after [k] epochs, [q'] after one more. *)
Lemma run_epochwise (train_loader val_loader : DataLoader) (n : nat)
    (p p' : Process) :
  main_epochs train_loader val_loader n p = (inr tt, p') ->
  forall k, (k < n)%nat ->
    exists q q',
      main_epochs train_loader val_loader k p = (inr tt, q)
      /\ main_epochs train_loader val_loader (S k) p = (inr tt, q')
      /\ epoch_body train_loader val_loader q = (inr tt, q')
      /\ for_range (n - S k) (epoch_body train_loader val_loader) q' = (inr tt, p').
Proof.
  intros Hrun k Hk. rewrite main_epochs_run in Hrun.
  replace n with (k + S (n - S k))%nat in Hrun by lia.
  rewrite for_range_split in Hrun.
  rewrite !main_epochs_run.
  replace (S k) with (k + 1)%nat by lia. rewrite for_range_split.
  destruct (for_range k _ _) as [[e|[]] q]; [discriminate|].
  cbn [for_range] in Hrun |- *. unfold Py.bind in Hrun |- *.
  destruct (epoch_body train_loader val_loader q) as [[e|[]] q'] eqn:Hb;
    [discriminate|].
  exists q, q'. replace (n - (k + 1))%nat with (n - S k)%nat by lia.
  repeat split; auto.
Qed.

Lemma running_best_exceeds (before : list Q) (v : Q) (after : list Q) :
  forall base,
    running_best base before < v
    <-> exceeds base (before ++ v :: after) (List.length before).
Proof.
  induction before as [|a before IH]; intros base.
  - unfold running_best, exceeds. cbn [fold_left app List.length nth].
    split; [intros H; split; [exact H | intros j Hj; lia] | intros [H _]; exact H].
  - cbn [app List.length]. rewrite exceeds_cons.
    unfold running_best. cbn [fold_left]. apply IH.
Qed.

(** Epoch [k] of a run that reaches its end, against the accuracies the
    whole run prints. *)
Lemma run_epoch_accuracy (train_loader val_loader : DataLoader) (n : nat)
    (p p' : Process) :
  journal p = [] ->
  main_epochs train_loader val_loader n p = (inr tt, p') ->
  forall k, (k < n)%nat ->
    exists q q' loss,
      main_epochs train_loader val_loader k p = (inr tt, q)
      /\ main_epochs train_loader val_loader (S k) p = (inr tt, q')
      /\ fst (evaluate val_loader (snd (train train_loader (runtime q))))
         = inr (loss, nth k (val_accuracies (journal p')) 0)
      /\ (best_accuracy q < nth k (val_accuracies (journal p')) 0
          <-> strict_increase (val_accuracies (journal p')) k)
      /\ (best_accuracy q < nth k (val_accuracies (journal p')) 0 ->
          best_accuracy q' = nth k (val_accuracies (journal p')) 0
          /\ best_model_pt q' = Saved (params (runtime q')))
      /\ (nth k (val_accuracies (journal p')) 0 <= best_accuracy q ->
          best_accuracy q' = best_accuracy q
          /\ best_model_pt q' = best_model_pt q).
Proof.
  intros Hj Hrun k Hk.
  destruct (run_epochwise _ _ _ _ _ Hrun k Hk) as (q & q' & Hq & Hq' & Hbody & Hrest).
  destruct (epoch_body_step _ _ _ _ Hbody) as (loss & v & Hev & Hacc & Hup & Hkeep).
  pose proof Hq as Hq0. rewrite main_epochs_run in Hq0.
  apply for_range_returns_best in Hq0.
  destruct Hq0 as (obs1 & Hlen1 & Hj1 & _ & Hbest1).
  cbn [journal best_accuracy] in Hj1, Hbest1. rewrite Hj in Hj1. cbn [app] in Hj1.
  apply for_range_returns_best in Hrest.
  destruct Hrest as (obs2 & _ & Hj2 & _ & _).
  assert (Haccs : val_accuracies (journal p')
                  = map observed_accuracy obs1 ++ v :: map observed_accuracy obs2).
  { rewrite Hj2, val_accuracies_app, Hacc, Hj1, !policy_val_accuracies,
      <- app_assoc. reflexivity. }
  assert (Hnth : nth k (val_accuracies (journal p')) 0 = v).
  { rewrite Haccs. rewrite <- Hlen1, <- (length_map observed_accuracy obs1).
    apply nth_middle. }
  rewrite Hnth. exists q, q', loss.
  split; [exact Hq|]. split; [exact Hq'|]. split; [exact Hev|].
  split; [|split; assumption].
  unfold strict_increase. rewrite Haccs, Hbest1.
  rewrite <- Hlen1, <- (length_map observed_accuracy obs1).
  apply running_best_exceeds.
Qed.

End MainFacts.

(** C1.  In a run of the epoch loop that reaches its end, started on an
    empty journal: one validation accuracy is printed per epoch; a
    checkpoint is persisted at the end of epoch [k] exactly when that
    epoch's validation accuracy is strictly greater than zero, where the
    accumulator starts, and than every earlier epoch's; the number of
    writes is the number of strict increases; and the checkpoint file
    holds the last snapshot written, each write having replaced the one
    before.  Epoch by epoch, with [q] the process after [k] epochs and
    [q'] the process after one more: the accuracy of epoch [k] is the one
    [evaluate] returned on the model [train] left; on a strict increase
    the file at the end of the epoch holds the parameters the model has
    at that moment, whatever it held before; on no strict increase the
    file is the one the epoch found. *)
Theorem checkpoint_iff_strict_increase `{T : Torch}
    (train_loader val_loader : DataLoader) (n : nat) (p p' : Process) :
  journal p = [] ->
  main_epochs train_loader val_loader n p = (inr tt, p') ->
  let accs := val_accuracies (journal p') in
  List.length accs = n
  /\ (forall k, (k < n)%nat ->
        (persisted_at (journal p') k <-> strict_increase accs k))
  /\ List.length (snapshots (journal p')) = strict_increases accs
  /\ best_model_pt p' = last (map Saved (snapshots (journal p'))) (best_model_pt p)
  /\ (forall k, (k < n)%nat ->
        exists q q' loss,
          main_epochs train_loader val_loader k p = (inr tt, q)
          /\ main_epochs train_loader val_loader (S k) p = (inr tt, q')
          /\ fst (evaluate val_loader (snd (train train_loader (runtime q))))
             = inr (loss, nth k accs 0)
          /\ (strict_increase accs k ->
              best_model_pt q' = Saved (params (runtime q')))
          /\ (~ strict_increase accs k -> best_model_pt q' = best_model_pt q)).
Proof.
  intros Hj Hrun accs. subst accs.
  pose proof (run_epoch_accuracy _ _ _ _ _ Hj Hrun) as Hepochs.
  unfold main_epochs, Py.bind, set_best_accuracy, Py.modify in Hrun.
  apply for_range_returns in Hrun.
  destruct Hrun as (obs & Hlen & Hj' & Hfile).
  cbn [journal best_accuracy best_model_pt] in Hj', Hfile.
  rewrite Hj in Hj'. cbn [app] in Hj'.
  split; [rewrite Hj', policy_val_accuracies, length_map; exact Hlen|].
  split; [|split; [|split]].
  - intros k Hk. rewrite Hj', policy_val_accuracies. apply policy_persisted. lia.
  - rewrite Hj', policy_val_accuracies. unfold strict_increases.
    rewrite length_map. apply policy_writes.
  - rewrite Hj'. exact Hfile.
  - intros k Hk.
    destruct (Hepochs k Hk) as (q & q' & loss & Hq & Hq' & Hev & Hiff & Hup & Hkeep).
    exists q, q', loss.
    split; [exact Hq|]. split; [exact Hq'|]. split; [exact Hev|]. split.
    + intros Hs. apply Hiff in Hs. exact (proj2 (Hup Hs)).
    + intros Hn.
      destruct (Qlt_le_dec (best_accuracy q)
                  (nth k (val_accuracies (journal p')) 0)) as [Hlt | Hle].
      * exfalso. apply Hn, Hiff, Hlt.
      * exact (proj2 (Hkeep Hle)).
Qed.

Lemma checkpoint_iff_strict_increase_witness :
  fst Toy.run3 = inr tt
  /\ val_accuracies (journal (snd Toy.run3)) = [1 # 2; 2 # 2; 1 # 2]
  /\ (persisted_at (journal (snd Toy.run3)) 1
      <-> strict_increase (val_accuracies (journal (snd Toy.run3))) 1)
  /\ List.length (snapshots (journal (snd Toy.run3)))
     = strict_increases (val_accuracies (journal (snd Toy.run3)))
  /\ best_model_pt (snd Toy.run3)
     = last (map Saved (snapshots (journal (snd Toy.run3)))) Missing
  /\ (exists q',
        main_epochs (T := Toy.torch) Toy.train_loader Toy.val_loader 2
          (Toy.process0 (-2) []) = (inr tt, q')
        /\ best_model_pt q' = Saved (params (runtime q'))).
Proof.
  assert (Hrun : main_epochs (T := Toy.torch) Toy.train_loader Toy.val_loader 3
                   (Toy.process0 (-2) []) = (inr tt, snd Toy.run3))
    by (vm_compute; reflexivity).
  split; [vm_compute; reflexivity|]. split; [vm_compute; reflexivity|].
  pose proof (checkpoint_iff_strict_increase (T := Toy.torch) Toy.train_loader
                Toy.val_loader 3 (Toy.process0 (-2) []) (snd Toy.run3)
                eq_refl Hrun)
    as (_ & Hiff & Hcount & Hfile & Hepoch).
  split; [exact (Hiff 1%nat ltac:(lia))|].
  split; [exact Hcount|]. split; [exact Hfile|].
  destruct (Hepoch 1%nat ltac:(lia)) as (q & q' & loss & _ & Hq' & _ & Hup & _).
  exists q'. split; [exact Hq'|].
  apply Hup. apply exceedsb_exceeds. vm_compute. reflexivity.
Defined.

(** C10.  When the validation accuracy exceeds the best so far and the
    storage fails the write, the policy raises with the accumulator
    already at the new accuracy while the improved snapshot is not in the
    file: the file is as it was when it could not be opened, and holds no
    snapshot any more when the write broke off; the model is untouched. *)
Theorem checkpoint_update_not_atomic `{T : Torch} (v : Q) (p : Process)
    (fault : StorageFault) (later : list StorageFault) :
  best_accuracy p < v ->
  storage_faults p = fault :: later ->
  fault <> WriteOk ->
  exists p',
    checkpoint_policy v p = (inl Py.StorageError, p')
    /\ best_accuracy p' = v
    /\ best_model_pt p'
       = match fault with
         | OpenFails => best_model_pt p
         | _ => Truncated
         end
    /\ runtime p' = runtime p.
Proof.
  destruct p as [rt best file faults j]. simpl. intros Hlt -> Hf.
  unfold checkpoint_policy, Py.bind, Py.gets, set_best_accuracy, Py.modify,
    torch_save.
  simpl. destruct (Qlt_le_dec best v) as [_ | Hle];
    [| exfalso; exact (Qlt_not_le _ _ Hlt Hle)].
  destruct fault; [congruence | |]; simpl; eexists; (split; [reflexivity|]);
    simpl; auto.
Qed.

Lemma checkpoint_update_not_atomic_witness :
  exists p',
    checkpoint_policy (T := Toy.torch) (1 # 2)
      (mkProcess (H := Toy.torch) (Toy.runtime0 0) 0 (Saved (H := Toy.torch) 7%Z)
         [WriteFails] [])
    = (inl Py.StorageError, p')
    /\ best_accuracy p' = 1 # 2
    /\ best_model_pt p' = Truncated (H := Toy.torch)
    /\ runtime p' = Toy.runtime0 0.
Proof.
  apply (checkpoint_update_not_atomic (T := Toy.torch) (1 # 2)
           (mkProcess (H := Toy.torch) (Toy.runtime0 0) 0 (Saved (H := Toy.torch) 7%Z)
         [WriteFails] [])
           WriteFails []).
  - reflexivity.
  - reflexivity.
  - discriminate.
Defined.

(** ** The classifier heads *)

Section HeadFacts.

Import Shape.
Local Open Scope nat_scope.
Context `{E : Shape.Encoder}.

Lemma traverse_map {A B} (f : A -> option B) (g : A -> B) (l : list A) :
  (forall a, In a l -> f a = Some (g a)) -> traverse f l = Some (map g l).
Proof.
  induction l as [|a l IH]; intros Hf; [reflexivity|].
  cbn [traverse map]. rewrite (Hf a (or_introl eq_refl)). cbn [obind].
  rewrite IH by (intros x Hx; apply Hf; right; exact Hx). reflexivity.
Qed.

Lemma cat1_cons (b c : nat) (x : shape) (rest : list shape) :
  cat1 ([b; c] :: x :: rest)
  = obind (cat1 (x :: rest)) (fun r =>
      match r with
      | [b'; c'] => if Nat.eqb b b' then Some [b; (c + c')%nat] else None
      | _ => None
      end).
Proof. reflexivity. Qed.

Lemma cat1_repeat (b c n : nat) :
  cat1 (repeat [b; c] (S n)) = Some [b; (S n * c)%nat].
Proof.
  induction n as [|n IH].
  - cbn. rewrite Nat.add_0_r. reflexivity.
  - change (repeat [b; c] (S (S n))) with ([b; c] :: [b; c] :: repeat [b; c] n).
    rewrite cat1_cons.
    change ([b; c] :: repeat [b; c] n) with (repeat [b; c] (S n)).
    rewrite IH. cbn [obind]. rewrite Nat.eqb_refl. reflexivity.
Qed.

Lemma conv_branch (b l f k : nat) :
  (0 < hidden_size)%nat -> (0 < f)%nat -> (1 <= k <= l)%nat ->
  obind (conv2d 1 f k hidden_size [b; 1; l; hidden_size])
    (fun c => squeeze 3 (relu c))
  = Some [b; f; (l - k + 1)%nat].
Proof.
  intros Hh Hf [Hk Hl]. unfold conv2d. cbn [Nat.eqb andb].
  destruct (Nat.leb_spec 1 f); [|lia].
  destruct (Nat.leb_spec 1 k); [|lia].
  destruct (Nat.leb_spec 1 hidden_size); [|lia].
  destruct (Nat.leb_spec k l); [|lia].
  rewrite Nat.leb_refl. cbn [andb obind].
  unfold relu, squeeze. cbn [nth_error]. rewrite Nat.sub_diag. reflexivity.
Qed.

Lemma pool_branch (b f l : nat) :
  (1 <= l)%nat ->
  obind (size [b; f; l] 2) (fun k =>
  obind (max_pool1d [b; f; l] k) (fun p => squeeze 2 p))
  = Some [b; f].
Proof.
  intros Hl. unfold size. cbn [nth_error obind]. unfold max_pool1d.
  destruct (Nat.leb_spec 1 l); [|lia]. rewrite Nat.leb_refl. cbn [andb obind].
  rewrite Nat.sub_diag, Nat.Div0.div_0_l. reflexivity.
Qed.

Lemma BertCNN_shape (m : BertCNN) (b l : nat) :
  bert [b; l] [b; l] = Some ([b; l; hidden_size], [b; hidden_size]) ->
  (0 < hidden_size)%nat -> (0 < cnn_num_filters m)%nat ->
  cnn_filter_sizes m <> [] ->
  (forall k, In k (cnn_filter_sizes m) -> (1 <= k <= l)%nat) ->
  BertCNN_forward m [b; l] [b; l] = Some [b; cnn_num_classes m].
Proof.
  intros Hb Hh Hf Hne Hk. unfold BertCNN_forward. rewrite Hb.
  cbn [obind fst unsqueeze1].
  rewrite (traverse_map _ (fun k => [b; cnn_num_filters m; (l - k + 1)%nat]))
    by (intros k Hin; apply conv_branch; auto).
  cbn [obind].
  rewrite (traverse_map _ (fun _ => [b; cnn_num_filters m])).
  2:{ intros i Hin. apply in_map_iff in Hin. destruct Hin as (k & <- & Hin).
      apply pool_branch. specialize (Hk k Hin). lia. }
  cbn [obind]. rewrite map_map, map_const.
  destruct (cnn_filter_sizes m) as [|k ks]; [congruence|].
  change (List.length (k :: ks)) with (S (List.length ks)).
  rewrite cat1_repeat. cbn [obind]. unfold dropout, linear.
  rewrite Nat.eqb_refl. reflexivity.
Qed.

Lemma BertMLP_shape (m : BertMLP) (b l : nat) :
  bert [b; l] [b; l] = Some ([b; l; hidden_size], [b; hidden_size]) ->
  BertMLP_forward m [b; l] [b; l] = Some [b; mlp_num_classes m].
Proof.
  intros Hb. unfold BertMLP_forward. rewrite Hb. cbn [obind snd].
  unfold linear at 1. rewrite Nat.eqb_refl. cbn [obind].
  unfold relu, dropout, linear. rewrite Nat.eqb_refl. reflexivity.
Qed.

Lemma recurrent_head_shape (hidden layers classes b l : nat) :
  (0 < hidden)%nat -> (0 < layers)%nat ->
  obind (recurrent hidden_size hidden layers [b; l; hidden_size]) (fun out =>
  obind (mean1 out) (fun pooled => linear hidden classes (dropout pooled)))
  = Some [b; classes].
Proof.
  intros Hh Hl. unfold recurrent. rewrite Nat.eqb_refl.
  destruct (Nat.leb_spec 1 hidden); [|lia].
  destruct (Nat.leb_spec 1 layers); [|lia].
  cbn [andb obind mean1].
  unfold dropout, linear. rewrite Nat.eqb_refl. reflexivity.
Qed.

Lemma BertLSTM_shape (m : BertLSTM) (b l : nat) :
  bert [b; l] [b; l] = Some ([b; l; hidden_size], [b; hidden_size]) ->
  (0 < lstm_hidden_size m)%nat -> (0 < lstm_num_layers m)%nat ->
  BertLSTM_forward m [b; l] [b; l] = Some [b; lstm_num_classes m].
Proof.
  intros Hb Hh Hl. unfold BertLSTM_forward. rewrite Hb. cbn [obind fst].
  apply recurrent_head_shape; assumption.
Qed.

Lemma BertRNN_shape (m : BertRNN) (b l : nat) :
  bert [b; l] [b; l] = Some ([b; l; hidden_size], [b; hidden_size]) ->
  (0 < rnn_hidden_size m)%nat -> (0 < rnn_num_layers m)%nat ->
  BertRNN_forward m [b; l] [b; l] = Some [b; rnn_num_classes m].
Proof.
  intros Hb Hh Hl. unfold BertRNN_forward. rewrite Hb. cbn [obind fst].
  apply recurrent_head_shape; assumption.
Qed.

End HeadFacts.

(** C6, with what the layers need.  For a batch of B >= 1 examples of
    shape (B, L) on which the encoder returns its representations: the
    MLP head returns logits of shape (B, num_classes); so do the LSTM and
    the RNN heads, their layer having a positive hidden size and a
    positive number of layers; so does the convolutional head when it has
    at least one filter per bank, at least one filter size, and every
    filter size is between 1 and L. *)
Theorem heads_logits_shape `{E : Shape.Encoder} (b l : nat) (cnn : Shape.BertCNN)
    (mlp : Shape.BertMLP) (lstm : Shape.BertLSTM) (rnn : Shape.BertRNN) :
  (0 < b)%nat ->
  Shape.bert [b; l] [b; l]
    = Some ([b; l; Shape.hidden_size], [b; Shape.hidden_size]) ->
  Shape.BertMLP_forward mlp [b; l] [b; l] = Some [b; Shape.mlp_num_classes mlp]
  /\ ((0 < Shape.lstm_hidden_size lstm)%nat -> (0 < Shape.lstm_num_layers lstm)%nat ->
      Shape.BertLSTM_forward lstm [b; l] [b; l]
      = Some [b; Shape.lstm_num_classes lstm])
  /\ ((0 < Shape.rnn_hidden_size rnn)%nat -> (0 < Shape.rnn_num_layers rnn)%nat ->
      Shape.BertRNN_forward rnn [b; l] [b; l]
      = Some [b; Shape.rnn_num_classes rnn])
  /\ ((0 < Shape.hidden_size)%nat ->
      (0 < Shape.cnn_num_filters cnn)%nat ->
      Shape.cnn_filter_sizes cnn <> [] ->
      (forall k, In k (Shape.cnn_filter_sizes cnn) -> (1 <= k <= l)%nat) ->
      Shape.BertCNN_forward cnn [b; l] [b; l] = Some [b; Shape.cnn_num_classes cnn]).
Proof.
  intros _ Hb. split; [exact (BertMLP_shape mlp b l Hb)|].
  split; [exact (BertLSTM_shape lstm b l Hb)|].
  split; [exact (BertRNN_shape rnn b l Hb)|].
  exact (BertCNN_shape cnn b l Hb).
Qed.

Lemma heads_logits_shape_witness :
  Shape.BertMLP_forward (E := Toy.encoder) Shape.BertMLP_default [32; 128]%nat
    [32; 128]%nat = Some [32; 2]%nat
  /\ Shape.BertLSTM_forward (E := Toy.encoder) Shape.BertLSTM_default [32; 128]%nat
       [32; 128]%nat = Some [32; 2]%nat
  /\ Shape.BertRNN_forward (E := Toy.encoder) Shape.BertRNN_default [32; 128]%nat
       [32; 128]%nat = Some [32; 2]%nat
  /\ Shape.BertCNN_forward (E := Toy.encoder) Shape.BertCNN_default [32; 128]%nat
       [32; 128]%nat = Some [32; 2]%nat.
Proof.
  pose proof (heads_logits_shape (E := Toy.encoder) 32 128 Shape.BertCNN_default
                Shape.BertMLP_default Shape.BertLSTM_default Shape.BertRNN_default
                ltac:(lia) eq_refl) as (Hm & Hl & Hr & Hc).
  split; [exact Hm|].
  split; [apply Hl; simpl; lia|].
  split; [apply Hr; simpl; lia|].
  apply Hc.
  - simpl. lia.
  - simpl. lia.
  - discriminate.
  - simpl. intros k [<- | [<- | [<- | []]]]; lia.
Defined.

(** C6 as stated fails: on a batch of sequence length 4, which the
    encoder accepts, the convolutional head with its default filter sizes
    3, 4 and 5 returns no logits: the window of 5 does not fit. *)
Lemma heads_logits_shape_counterexample :
  Shape.bert (Encoder := Toy.encoder) [1; 4]%nat [1; 4]%nat
    = Some ([1; 4; 768]%nat, [1; 768]%nat)
  /\ Shape.BertCNN_forward (E := Toy.encoder) Shape.BertCNN_default [1; 4]%nat
       [1; 4]%nat = None.
Proof. split; reflexivity. Qed.

(** * Further properties *)

(** ** The constructor, line by line *)

Lemma parsed_record_step `{E : Environment} (line : string) (r : Py.value * Py.value)
    (rest : list string) (acc : list (Py.value * Py.value)) :
  parsed_record line = Some r ->
  read_lines (line :: rest) acc = read_lines rest (acc ++ [r]).
Proof.
  unfold parsed_record. cbn [read_lines].
  destruct (json_loads line) as [[| | | | | | |items]|]; try discriminate.
  cbn [Py.rbind Py.ok Py.subscript].
  destruct (Py.lookup "headline" items) as [h|]; [|discriminate].
  destruct (Py.lookup "is_sarcastic" items) as [l|]; [|discriminate].
  intros [= <-]. reflexivity.
Qed.

Lemma read_lines_parsed `{E : Environment} (lines : list string) :
  forall acc records,
    map parsed_record lines = map Some records ->
    read_lines lines acc = inr (acc ++ records).
Proof.
  induction lines as [|line rest IH]; intros acc [|r records]; simpl map;
    try discriminate.
  - intros _. simpl. rewrite app_nil_r. reflexivity.
  - intros [= Hr Hrest]. rewrite (parsed_record_step _ _ _ _ Hr).
    rewrite (IH _ _ Hrest), <- app_assoc. reflexivity.
Qed.

Lemma line_error_step `{E : Environment} (line : string) (e : Py.exn)
    (rest : list string) (acc : list (Py.value * Py.value)) :
  line_error line = Some e -> read_lines (line :: rest) acc = inl e.
Proof.
  unfold line_error. cbn [read_lines].
  destruct (json_loads line) as [[| | | | | | |items]|];
    cbn [Py.rbind Py.ok Py.raise Py.subscript]; try (intros [= <-]; reflexivity).
  destruct (Py.lookup "headline" items) as [h|];
    cbn [Py.rbind Py.ok Py.raise]; [|intros [= <-]; reflexivity].
  destruct (Py.lookup "is_sarcastic" items) as [l|];
    cbn [Py.rbind Py.ok Py.raise]; [discriminate | intros [= <-]; reflexivity].
Qed.

(** X1.  When the tokenizer resolves and the file opens, and every line
    holds an object with the two fields, the constructor returns a
    dataset with one record per line, in the order of the file, holding
    the two field values as parsed, whatever their types; [len] is the
    number of lines. *)
Theorem init_reads_every_line `{E : Environment} (json_file name : string) (n : nat)
    (t : Tokenizer) (lines : list string) (records : list (Py.value * Py.value)) :
  from_pretrained name = Some t ->
  file_system json_file = Some lines ->
  map parsed_record lines = map Some records ->
  SarcasmDataset_init json_file name n = inr (mkDataset records t n)
  /\ SarcasmDataset_len (mkDataset records t n) = List.length lines.
Proof.
  intros Ht Hf Hp. unfold SarcasmDataset_init. rewrite Ht, Hf.
  cbn [Py.rbind Py.ok]. rewrite (read_lines_parsed _ [] records Hp).
  split; [reflexivity|].
  unfold SarcasmDataset_len. cbn [data].
  rewrite <- (length_map Some records), <- Hp, length_map. reflexivity.
Qed.

Lemma init_reads_every_line_witness :
  SarcasmDataset_init (E := Toy.env) "mixed.json" "bert-base-uncased" 8
  = inr Toy.mixed
  /\ SarcasmDataset_len Toy.mixed = 2%nat.
Proof.
  apply (init_reads_every_line (E := Toy.env) "mixed.json" "bert-base-uncased" 8
           Toy.tok [line_long; line_a]
           [(Py.VStr "sarcasm detection", Py.VInt 1); (Py.VStr "a", Py.VInt 0)]);
    reflexivity.
Defined.

(** X2.  The constructor stops at the first line it cannot use, and the
    exception is that line's: [JSONDecodeError] for text that is not
    JSON, [TypeError] for JSON that is no object, [KeyError] naming the
    text field when it is missing (also when the label field is missing
    too), [KeyError] naming the label field otherwise.  The lines after it
    play no part. *)
Theorem init_first_bad_line `{E : Environment} (json_file name : string) (n : nat)
    (t : Tokenizer) (good : list string) (records : list (Py.value * Py.value))
    (bad : string) (rest : list string) (e : Py.exn) :
  from_pretrained name = Some t ->
  file_system json_file = Some (good ++ bad :: rest) ->
  map parsed_record good = map Some records ->
  line_error bad = Some e ->
  SarcasmDataset_init json_file name n = inl e.
Proof.
  intros Ht Hf Hg He. unfold SarcasmDataset_init. rewrite Ht, Hf.
  cbn [Py.rbind Py.ok].
  assert (Hr : forall acc, read_lines (good ++ bad :: rest) acc = inl e).
  { clear Hf. revert records Hg.
    induction good as [|g good IH]; intros [|r records]; simpl map;
      try discriminate; intros Hg acc.
    - apply (line_error_step _ _ _ _ He).
    - injection Hg as Hr Hrest. cbn [app].
      rewrite (parsed_record_step _ _ _ _ Hr). apply (IH _ Hrest). }
  rewrite Hr. reflexivity.
Qed.

Lemma init_first_bad_line_witness :
  SarcasmDataset_init (E := Toy.env) "bad.json" "bert-base-uncased" 128
  = inl (Py.KeyError "headline").
Proof.
  apply (init_first_bad_line (E := Toy.env) "bad.json" "bert-base-uncased" 128
           Toy.tok [line_a] [(Py.VStr "a", Py.VInt 0)] "{}" []);
    reflexivity.
Defined.

(** ** Indexed access *)

(** X3.  Indexed access checks the index before anything else: an index
    at or beyond the length, or below minus the length, raises
    [IndexError]; a negative index within range reads the record that
    many places from the end. *)
Theorem getitem_index_bounds (ds : SarcasmDataset) (idx : Z) :
  let n := Z.of_nat (SarcasmDataset_len ds) in
  ((n <= idx \/ idx < - n)%Z -> SarcasmDataset_getitem ds idx = inl Py.IndexError)
  /\ ((- n <= idx < 0)%Z ->
      SarcasmDataset_getitem ds idx = SarcasmDataset_getitem ds (idx + n)).
Proof.
  intros n. unfold SarcasmDataset_getitem, Py.list_index, SarcasmDataset_len in *.
  fold n. split.
  - intros Hout.
    destruct (Z.ltb_spec idx 0);
      [destruct (Z.leb_spec 0 (idx + n)) | destruct (Z.leb_spec 0 idx)];
      cbn [andb]; try reflexivity.
    + destruct (Z.ltb_spec (idx + n) n); [lia | reflexivity].
    + destruct (Z.ltb_spec idx n); [lia | reflexivity].
  - intros Hneg.
    destruct (Z.ltb_spec idx 0); [|lia].
    destruct (Z.ltb_spec (idx + n) 0); [lia|]. reflexivity.
Qed.

Lemma getitem_index_bounds_witness :
  SarcasmDataset_getitem Toy.two 2 = inl Py.IndexError
  /\ SarcasmDataset_getitem Toy.two (-1) = SarcasmDataset_getitem Toy.two 1.
Proof.
  split.
  - apply (proj1 (getitem_index_bounds Toy.two 2)). simpl. lia.
  - apply (proj2 (getitem_index_bounds Toy.two (-1))). simpl. lia.
Defined.

(** X4.  From the file to the encoded example: when the tokenizer
    resolves and pads and truncates, and every line parses, the record
    read from a line that holds a string and an integer label is encoded,
    at that line's index, into two sequences of [max_length] entries with
    the label of the line. *)
Theorem init_then_getitem `{E : Environment} (json_file name : string) (n : nat)
    (t : Tokenizer) (lines : list string) (records : list (Py.value * Py.value))
    (i : nat) (text : string) (label : Z) :
  from_pretrained name = Some t ->
  file_system json_file = Some lines ->
  map parsed_record lines = map Some records ->
  fixed_length_tokenizer t n ->
  nth_error records i = Some (Py.VStr text, Py.VInt label) ->
  (int64_min <= label <= int64_max)%Z ->
  exists ds ex,
    SarcasmDataset_init json_file name n = inr ds
    /\ SarcasmDataset_getitem ds (Z.of_nat i) = inr ex
    /\ List.length (input_ids ex) = n
    /\ List.length (attention_mask ex) = n
    /\ labels ex = label.
Proof.
  intros Ht Hf Hp Htok Hrec Hlab.
  exists (mkDataset records t n).
  destruct (getitem_encoded (mkDataset records t n) i text label Htok Hrec Hlab)
    as (ex & Hg & Hi & Hm & Hl).
  exists ex. split; [|auto].
  unfold SarcasmDataset_init. rewrite Ht, Hf. cbn [Py.rbind Py.ok].
  rewrite (read_lines_parsed _ [] records Hp). reflexivity.
Qed.

Lemma init_then_getitem_witness :
  exists ds ex,
    SarcasmDataset_init (E := Toy.env) "mixed.json" "bert-base-uncased" 8 = inr ds
    /\ SarcasmDataset_getitem ds 0 = inr ex
    /\ List.length (input_ids ex) = 8%nat
    /\ List.length (attention_mask ex) = 8%nat
    /\ labels ex = 1%Z.
Proof.
  apply (init_then_getitem (E := Toy.env) "mixed.json" "bert-base-uncased" 8
           Toy.tok [line_long; line_a]
           [(Py.VStr "sarcasm detection", Py.VInt 1); (Py.VStr "a", Py.VInt 0)]
           0 "sarcasm detection" 1); try reflexivity.
  - apply toy_fixed_length. lia.
  - unfold int64_min, int64_max. lia.
Defined.

(** ** Batches *)

Lemma fetch_examples_encoded (ds : SarcasmDataset) (indices : list nat) :
  fixed_length_tokenizer (tokenizer ds) (max_length ds) ->
  (forall i, In i indices -> text_record ds i) ->
  exists es,
    fetch_examples ds indices = inr es
    /\ List.length es = List.length indices
    /\ Forall (fun e => List.length (input_ids e) = max_length ds
                        /\ List.length (attention_mask e) = max_length ds) es.
Proof.
  intros Htok. induction indices as [|i rest IH]; intros Hrec.
  - exists []. repeat split. constructor.
  - destruct (Hrec i (or_introl eq_refl)) as (text & label & Hn & Hl).
    destruct (getitem_encoded ds i text label Htok Hn Hl) as (e & Hg & Hi & Hm & _).
    destruct (IH (fun j Hj => Hrec j (or_intror Hj))) as (es & He & Hlen & Hall).
    exists (e :: es). cbn [fetch_examples]. rewrite Hg, He.
    split; [reflexivity|]. split; [simpl; congruence|].
    constructor; auto.
Qed.

Lemma stack_uniform (rows : list (list Z)) (n : nat) :
  Forall (fun r => List.length r = n) rows -> stack rows = inr rows.
Proof.
  intros Hall. destruct rows as [|r rest]; [reflexivity|].
  unfold stack. inversion Hall as [|? ? Hr Hrest]; subst.
  assert (Hb : forallb (fun x => Nat.eqb (List.length x) (List.length r)) rest = true).
  { apply forallb_forall. intros x Hx. apply Nat.eqb_eq.
    rewrite Forall_forall in Hrest. apply (Hrest x Hx). }
  rewrite Hb. reflexivity.
Qed.

(** X5.  A batch of records that hold a text and an integer label, under a
    tokenizer that pads and truncates, is fetched without an exception and
    is rectangular: as many rows of token ids, rows of mask bits and
    labels as there are indices, every row of [max_length] entries, the
    shape (B, L) the heads take. *)
Theorem fetch_batch_shape (ds : SarcasmDataset) (indices : list nat) :
  fixed_length_tokenizer (tokenizer ds) (max_length ds) ->
  (forall i, In i indices -> text_record ds i) ->
  exists b,
    fetch ds indices = inr b
    /\ List.length (batch_input_ids b) = List.length indices
    /\ List.length (batch_attention_mask b) = List.length indices
    /\ List.length (batch_labels b) = List.length indices
    /\ Forall (fun row => List.length row = max_length ds) (batch_input_ids b)
    /\ Forall (fun row => List.length row = max_length ds) (batch_attention_mask b).
Proof.
  intros Htok Hrec.
  destruct (fetch_examples_encoded ds indices Htok Hrec) as (es & He & Hlen & Hall).
  assert (Hids : Forall (fun row => List.length row = max_length ds)
                   (map input_ids es)).
  { apply Forall_map. eapply Forall_impl; [|exact Hall]. intros e [H _]. exact H. }
  assert (Hmask : Forall (fun row => List.length row = max_length ds)
                    (map attention_mask es)).
  { apply Forall_map. eapply Forall_impl; [|exact Hall]. intros e [_ H]. exact H. }
  unfold fetch. rewrite He. cbn [Py.rbind]. unfold collate.
  rewrite (stack_uniform _ _ Hids), (stack_uniform _ _ Hmask). cbn [Py.rbind Py.ok].
  eexists. split; [reflexivity|]. cbn [batch_input_ids batch_attention_mask batch_labels].
  rewrite !length_map. auto.
Qed.

Lemma fetch_batch_shape_witness :
  exists b,
    fetch Toy.mixed [1; 0]%nat = inr b
    /\ List.length (batch_input_ids b) = 2%nat
    /\ List.length (batch_attention_mask b) = 2%nat
    /\ List.length (batch_labels b) = 2%nat
    /\ Forall (fun row => List.length row = 8%nat) (batch_input_ids b)
    /\ Forall (fun row => List.length row = 8%nat) (batch_attention_mask b).
Proof.
  apply (fetch_batch_shape Toy.mixed [1; 0]%nat).
  - apply toy_fixed_length. simpl. lia.
  - intros i [<- | [<- | []]]; unfold text_record; simpl.
    + exists "a", 0%Z. split; [reflexivity|]. unfold int64_min, int64_max. lia.
    + exists "sarcasm detection", 1%Z. split; [reflexivity|].
      unfold int64_min, int64_max. lia.
Defined.

Lemma batch_sampler_sizes (size : nat) (sampler : list nat) :
  (0 < size)%nat ->
  forall batch, (List.length batch < size)%nat ->
    let chunks := batch_sampler size sampler batch in
    Forall (fun c => (1 <= List.length c <= size)%nat) chunks
    /\ (forall i, (S i < List.length chunks)%nat ->
          List.length (nth i chunks []) = size).
Proof.
  intros Hs. induction sampler as [|idx rest IH]; intros batch Hb;
    cbn [batch_sampler].
  - destruct (Nat.ltb_spec 0 (List.length batch)) as [Hpos | Hz].
    + split; [constructor; [lia | constructor]|].
      intros i Hi. simpl in Hi. lia.
    + split; [constructor|]. intros i Hi. simpl in Hi. lia.
  - destruct (Nat.eqb_spec (List.length (batch ++ [idx])) size) as [He | Hne].
    + destruct (IH [] ltac:(simpl; lia)) as [Hall Hfull].
      split; [constructor; [lia | exact Hall]|].
      intros [|i] Hi; [exact He|]. cbn [nth]. apply Hfull.
      cbn [List.length] in Hi. lia.
    + apply IH. rewrite length_app in *. simpl in *. lia.
Qed.

Lemma batch_sampler_partition (size : nat) (order : list nat) :
  (0 < size)%nat ->
  let chunks := batch_sampler size order [] in
  List.concat chunks = order
  /\ Forall (fun c => (1 <= List.length c <= size)%nat) chunks
  /\ (forall i, (S i < List.length chunks)%nat ->
        List.length (nth i chunks []) = size)
  /\ List.length chunks = ((List.length order + size - 1) / size)%nat.
Proof.
  intros Hs chunks. subst chunks.
  split; [apply (batch_sampler_concat size order [])|].
  destruct (batch_sampler_sizes size order Hs [] ltac:(simpl; lia)) as [Hall Hfull].
  split; [exact Hall|]. split; [exact Hfull|].
  rewrite (batch_sampler_length size order Hs [] ltac:(simpl; lia)). reflexivity.
Qed.

Lemma fetched_sizes (ds : SarcasmDataset) (chunks : list (list nat)) :
  forall bs, map (fetch ds) chunks = map inr bs ->
    map (fun b => List.length (batch_labels b)) bs
    = map (fun c => List.length c) chunks.
Proof.
  induction chunks as [|c chunks IH]; intros [|b bs]; simpl; try discriminate.
  - reflexivity.
  - intros [= Hb Hrest]. rewrite (fetch_labels_length _ _ _ Hb), (IH _ Hrest).
    reflexivity.
Qed.

(** X6.  The two divisors of the loops count what the loop went through:
    on a pass that ends without an exception there are as many batches as
    [len(dataloader)] and they hold as many examples as
    [len(dataloader.dataset)]; no batch is empty or larger than the batch
    size, and every batch but the last is full. *)
Theorem loader_pass_counts `{T : Torch} (dl : DataLoader) (rt rt' : Runtime)
    (bs : list Batch) :
  randperm_permutes -> (0 < batch_size dl)%nat -> yields dl rt bs rt' ->
  List.length bs = DataLoader_len dl
  /\ total_examples bs = SarcasmDataset_len (dataset dl)
  /\ Forall (fun b => (1 <= List.length (batch_labels b) <= batch_size dl)%nat) bs
  /\ (forall i b, (S i < List.length bs)%nat -> nth_error bs i = Some b ->
        List.length (batch_labels b) = batch_size dl).
Proof.
  intros Hp Hs Hy.
  destruct (yields_counts _ _ _ _ Hp Hs Hy) as [Hl Ht].
  split; [exact Hl|]. split; [exact Ht|].
  destruct (yields_inv _ _ _ _ Hy) as [Hb _]. unfold DataLoader_batches in Hb.
  pose proof (fetched_sizes _ _ _ Hb) as Hsz.
  destruct (batch_sampler_partition (batch_size dl)
              (fst (drawn_order dl (rng rt))) Hs) as (_ & Hall & Hfull & _).
  split.
  - apply (Forall_map (fun b => List.length (batch_labels b))
             (fun n => (1 <= n <= batch_size dl)%nat)).
    rewrite Hsz. apply Forall_map. exact Hall.
  - intros i b Hi Hn.
    assert (Hlen : List.length bs
                   = List.length (batch_sampler (batch_size dl)
                                    (fst (drawn_order dl (rng rt))) [])).
    { rewrite <- (length_map (fun b => List.length (batch_labels b)) bs), Hsz,
        length_map. reflexivity. }
    specialize (Hfull i ltac:(lia)).
    assert (Hnth : nth_error (map (fun b => List.length (batch_labels b)) bs) i
                   = Some (List.length (batch_labels b)))
      by (rewrite nth_error_map, Hn; reflexivity).
    rewrite Hsz, nth_error_map in Hnth.
    destruct (nth_error (batch_sampler _ _ _) i) as [c|] eqn:Hc; [|discriminate].
    injection Hnth as <-. rewrite <- Hfull.
    rewrite (nth_error_nth _ _ _ Hc). reflexivity.
Qed.

Lemma loader_pass_counts_witness :
  List.length [Toy.batch_ab] = DataLoader_len Toy.val_loader
  /\ total_examples [Toy.batch_ab] = SarcasmDataset_len (dataset Toy.val_loader).
Proof.
  pose proof (loader_pass_counts (T := Toy.torch) Toy.val_loader (Toy.runtime0 0)
                (Toy.runtime0 0) [Toy.batch_ab] toy_randperm ltac:(simpl; lia)
                toy_val_yields) as (Hl & Ht & _).
  split; [exact Hl | exact Ht].
Defined.

(** ** More on the training loop *)

Section TrainFacts.

Context `{T : Torch}.

Ltac fields := cbn [params training grads opt_state rng trace
                    pr_params pr_grads pr_opt pr_rng pr_loss pr_correct].

(** The loop over batches that come without an exception, followed by
    whatever comes next. *)
Lemma train_batches_prefix (bs : list Batch) (todo : list (Py.result Batch)) :
  forall (rt : Runtime) (tl : Q) (tc : Z),
    training rt = true ->
    train_batches (map inr bs ++ todo) tl tc rt =
      (let s := training_epoch
                  (mkProgress (params rt) (grads rt) (opt_state rt) (rng rt) tl tc) bs in
       train_batches todo (pr_loss s) (pr_correct s)
         (mkRuntime (pr_params s) true (pr_grads s) (pr_opt s) (pr_rng s)
            (trace rt ++ flat_map batch_events bs))).
Proof.
  induction bs as [|b bs IH]; intros [p m g o r tr] tl tc Hm; simpl in Hm; subst m.
  - simpl. rewrite app_nil_r. reflexivity.
  - cbn [map app train_batches]. unfold Py.bind at 1. cbn [Py.lift_result].
    unfold Py.bind, zero_grad, call_model, backward, optimizer_step, log,
      Py.modify, Py.gets, Py.ret, Py.bind.
    fields.
    destruct (draw_mask r) as [mk r'] eqn:Hd. fields.
    destruct (adamw o p (gradient p (Some mk) b)) as [o' p'] eqn:Ha. fields.
    rewrite IH by reflexivity. fields.
    assert (Hs : training_step (mkProgress p g o r tl tc) b
                 = mkProgress p' (Some (gradient p (Some mk) b)) o' r'
                     (tl + criterion (forward p (Some mk) (batch_input_ids b)
                                        (batch_attention_mask b)) (batch_labels b))
                     (tc + count_correct (forward p (Some mk) (batch_input_ids b)
                                            (batch_attention_mask b)) (batch_labels b))).
    { unfold training_step. fields. rewrite Hd, Ha. unfold logits.
      rewrite count_correct_hits. reflexivity. }
    cbn [training_epoch fold_left]. rewrite Hs.
    cbn [flat_map batch_events app]. rewrite <- !app_assoc. reflexivity.
Qed.

(** What was accumulated before the first batch is cleared by it. *)
Lemma train_batches_stale (todo : list (Py.result Batch)) (rt : Runtime)
    (g : option Grad) (tl : Q) (tc : Z) :
  fst (train_batches todo tl tc (set_grads rt g)) = fst (train_batches todo tl tc rt)
  /\ params (snd (train_batches todo tl tc (set_grads rt g)))
     = params (snd (train_batches todo tl tc rt))
  /\ opt_state (snd (train_batches todo tl tc (set_grads rt g)))
     = opt_state (snd (train_batches todo tl tc rt))
  /\ rng (snd (train_batches todo tl tc (set_grads rt g)))
     = rng (snd (train_batches todo tl tc rt)).
Proof.
  destruct rt as [p m g0 o r tr]. unfold set_grads. fields.
  destruct todo as [|[e|b] todo].
  - repeat split.
  - repeat split.
  - repeat split; reflexivity.
Qed.

Lemma training_epoch_correct (bs : list Batch) :
  forall s : Progress,
    (pr_correct s <= pr_correct (training_epoch s bs)
       <= pr_correct s + Z.of_nat (total_examples bs))%Z.
Proof.
  induction bs as [|b bs IH]; intros s.
  - unfold total_examples. simpl. lia.
  - cbn [training_epoch fold_left].
    specialize (IH (training_step s b)). unfold training_epoch in IH.
    assert (Hstep : (pr_correct s <= pr_correct (training_step s b)
                       <= pr_correct s + Z.of_nat (List.length (batch_labels b)))%Z).
    { unfold training_step. destruct (draw_mask _) as [mk r].
      destruct (adamw _ _ _) as [o p]. fields.
      pose proof (hits_le (map argmax (logits (pr_params s) (Some mk) b))
                    (batch_labels b)). lia. }
    unfold total_examples in *. cbn [map list_sum fold_right] in *.
    unfold list_sum in IH. lia.
Qed.

End TrainFacts.

(** X7.  Gradients left over from before the call do not reach the
    update: whatever gradients the runtime holds when [train] is called,
    the call has the same outcome and leaves the same parameters, the same
    optimizer state and the same generator. *)
Theorem train_ignores_stale_gradients `{T : Torch} (dl : DataLoader) (rt : Runtime)
    (g : option Grad) :
  fst (train dl (set_grads rt g)) = fst (train dl rt)
  /\ params (snd (train dl (set_grads rt g))) = params (snd (train dl rt))
  /\ opt_state (snd (train dl (set_grads rt g))) = opt_state (snd (train dl rt))
  /\ rng (snd (train dl (set_grads rt g))) = rng (snd (train dl rt)).
Proof.
  rewrite !train_run.
  change (rng (set_grads rt g)) with (rng rt).
  change (params (set_grads rt g)) with (params rt).
  change (opt_state (set_grads rt g)) with (opt_state rt).
  change (trace (set_grads rt g)) with (trace rt).
  change (grads (set_grads rt g)) with g.
  set (todo := DataLoader_batches dl (fst (drawn_order dl (rng rt)))).
  set (rt1 := mkRuntime (params rt) true (grads rt) (opt_state rt)
                (snd (drawn_order dl (rng rt))) (trace rt)).
  pose proof (train_batches_stale todo rt1 g 0 0) as (Hv & Hp & Ho & Hr).
  change (set_grads rt1 g)
    with (mkRuntime (params rt) true g (opt_state rt)
            (snd (drawn_order dl (rng rt))) (trace rt)) in *.
  destruct (train_batches todo 0 0 rt1) as [[e1|t1] s1];
    destruct (train_batches todo 0 0 (mkRuntime (params rt) true g (opt_state rt)
                                        (snd (drawn_order dl (rng rt))) (trace rt)))
      as [[e2|t2] s2];
    cbn [fst snd] in *; try discriminate.
  - injection Hv as ->. auto.
  - injection Hv as ->. auto.
Qed.

(** X8.  An exception while a batch is fetched ends [train] at once, with
    no pair returned and no rollback: the parameters and the optimizer
    carry the updates of the batches before it, one step each, and of no
    other. *)
Theorem train_failure_keeps_updates `{T : Torch} (dl : DataLoader) (rt : Runtime)
    (bs : list Batch) (e : Py.exn) (rest : list (Py.result Batch)) :
  DataLoader_batches dl (fst (drawn_order dl (rng rt))) = map inr bs ++ inl e :: rest ->
  let s := training_epoch
             (mkProgress (params rt) (grads rt) (opt_state rt)
                (snd (drawn_order dl (rng rt))) 0 0) bs in
  train dl rt =
    (inl e,
     mkRuntime (pr_params s) true (pr_grads s) (pr_opt s) (pr_rng s)
       (trace rt ++ flat_map batch_events bs)).
Proof.
  intros Hb s. rewrite train_run, Hb, train_batches_prefix by reflexivity.
  reflexivity.
Qed.

Lemma train_failure_keeps_updates_witness :
  fst (train (T := Toy.torch) (mkDataLoader Toy.flawed 1 false) (Toy.runtime0 0))
  = inl Py.TypeError
  /\ params (snd (train (T := Toy.torch) (mkDataLoader Toy.flawed 1 false)
                    (Toy.runtime0 0))) = 1%Z.
Proof.
  pose proof (train_failure_keeps_updates (T := Toy.torch)
                (mkDataLoader Toy.flawed 1 false) (Toy.runtime0 0)
                [Toy.batch_a] Py.TypeError [] eq_refl) as H.
  split; [exact (f_equal fst H) | exact (f_equal (fun x => params (snd x)) H)].
Defined.

Lemma ratio_bounds_Z (c : Z) (n : nat) :
  (0 < n)%nat -> (0 <= c <= Z.of_nat n)%Z ->
  0 <= inject_Z c / inject_Z (Z.of_nat n) /\ inject_Z c / inject_Z (Z.of_nat n) <= 1.
Proof.
  intros Hn Hc. rewrite <- (Z2Nat.id c) by lia.
  apply ratio_bounds; lia.
Qed.

(** X9.  The accuracy [train] returns lies between 0 and 1: it counts,
    over the examples of the pass, the predictions the head made in
    training mode on each batch before that batch's update. *)
Theorem train_accuracy_bounds `{T : Torch} (dl : DataLoader) (rt rt0 : Runtime)
    (bs : list Batch) :
  randperm_permutes -> (0 < batch_size dl)%nat -> bs <> [] ->
  yields dl rt bs rt0 ->
  exists loss acc rt',
    train dl rt = (inr (loss, acc), rt')
    /\ acc = inject_Z (pr_correct (training_epoch
                         (mkProgress (params rt) (grads rt) (opt_state rt)
                            (rng rt0) 0 0) bs))
             / inject_Z (Z.of_nat (total_examples bs))
    /\ 0 <= acc /\ acc <= 1.
Proof.
  intros Hp Hs Hne Hy.
  destruct (yields_counts _ _ _ _ Hp Hs Hy) as [_ Ht].
  destruct (yields_nonempty _ _ _ _ Hp Hs Hy Hne) as [_ Hn].
  rewrite (train_yields _ _ _ _ Hp Hs Hne Hy), <- Ht.
  do 3 eexists. split; [reflexivity|]. split; [reflexivity|].
  apply ratio_bounds_Z; [lia|].
  pose proof (training_epoch_correct bs
                (mkProgress (params rt) (grads rt) (opt_state rt) (rng rt0) 0 0)) as H.
  cbn [pr_correct] in H. lia.
Qed.

Lemma train_accuracy_bounds_witness :
  exists loss acc rt',
    train (T := Toy.torch) Toy.train_loader (Toy.runtime0 0) = (inr (loss, acc), rt')
    /\ acc = inject_Z (pr_correct (training_epoch (T := Toy.torch)
                         (mkProgress (H := Toy.torch) 0%Z None 0%nat 1%nat 0 0)
                         [Toy.batch_ba]))
             / inject_Z (Z.of_nat (total_examples [Toy.batch_ba]))
    /\ 0 <= acc /\ acc <= 1.
Proof.
  apply (train_accuracy_bounds (T := Toy.torch) Toy.train_loader (Toy.runtime0 0)
           (mkRuntime (H := Toy.torch) 0%Z false None 0%nat 1%nat [])
           [Toy.batch_ba]).
  - exact toy_randperm.
  - simpl. lia.
  - discriminate.
  - exact toy_train_yields.
Defined.

(** ** More on the evaluation loop *)

Lemma evaluate_batches_events `{T : Torch} (todo : list (Py.result Batch)) :
  forall (rt : Runtime) (tl : Q) (tc : Z),
    training rt = false ->
    exists seen,
      snd (evaluate_batches todo tl tc rt)
      = mkRuntime (params rt) false (grads rt) (opt_state rt) (rng rt)
          (trace rt ++ map (EvForward false) seen)
      /\ (List.length seen <= List.length todo)%nat.
Proof.
  induction todo as [|[e|b] todo IH]; intros [p m g o r tr] tl tc Hm;
    simpl in Hm; subst m.
  - exists []. simpl. rewrite app_nil_r. split; [reflexivity | lia].
  - exists []. simpl. rewrite app_nil_r. split; [reflexivity | lia].
  - cbn [evaluate_batches]. unfold Py.bind at 1. cbn [Py.lift_result].
    unfold Py.bind, call_model, log, Py.modify, Py.gets, Py.ret, Py.bind.
    cbn [params training grads opt_state rng trace].
    match goal with
    | |- context [evaluate_batches todo ?a ?c ?s] =>
        destruct (IH s a c eq_refl) as (seen & Hs & Hl);
        destruct (evaluate_batches todo a c s) as [[e|v] rt'] eqn:He
    end; cbn [snd params training grads opt_state rng trace] in *; subst rt';
      exists (b :: seen); cbn [map List.length]; rewrite <- app_assoc;
      (split; [reflexivity | lia]).
Qed.

(** X10.  Whatever mode the model is in when [evaluate] is called, every
    forward pass of the call runs in evaluation mode, without a dropout
    mask; the call does nothing else to the model or the optimizer (no
    clearing, no backward pass, no step), takes at most one forward pass
    per batch of the loader, and leaves the model in evaluation mode,
    whether it returns or raises. *)
Theorem evaluate_forward_only `{T : Torch} (dl : DataLoader) (rt : Runtime) :
  exists seen,
    trace (snd (evaluate dl rt)) = trace rt ++ map (EvForward false) seen
    /\ training (snd (evaluate dl rt)) = false
    /\ (List.length seen
        <= List.length (DataLoader_batches dl (fst (drawn_order dl (rng rt)))))%nat.
Proof.
  rewrite evaluate_run.
  match goal with
  | |- context [evaluate_batches ?todo 0 0 ?r] =>
      destruct (evaluate_batches_events todo r 0 0 eq_refl) as (seen & Hs & Hl);
      destruct (evaluate_batches todo 0 0 r) as [[e|t] rt2]
  end; cbn [snd params training grads opt_state rng trace] in *; subst rt2;
    exists seen; auto.
Qed.

(** X11.  On a loader that does not shuffle, the outcome of [evaluate] is
    a function of the parameters alone: two runtimes with the same
    parameters get the same pair, or the same exception, whatever mode,
    gradients, optimizer state, generator or history they hold. *)
Theorem evaluate_depends_on_parameters `{T : Torch} (dl : DataLoader)
    (rt1 rt2 : Runtime) :
  shuffle dl = false -> params rt1 = params rt2 ->
  fst (evaluate dl rt1) = fst (evaluate dl rt2).
Proof.
  intros Hs Hp. rewrite !evaluate_value. unfold drawn_order. rewrite Hs.
  cbn [fst snd].
  rewrite (evaluate_batches_value _
             (mkRuntime (params rt1) false (grads rt1) (opt_state rt1) (rng rt1)
                (trace rt1))
             (mkRuntime (params rt2) false (grads rt2) (opt_state rt2) (rng rt2)
                (trace rt2)) 0 0 eq_refl eq_refl Hp).
  reflexivity.
Qed.

Lemma evaluate_depends_on_parameters_witness :
  fst (evaluate (T := Toy.torch) Toy.val_loader
         (mkRuntime (H := Toy.torch) 1%Z true (Some 5%Z) 7%nat 3%nat [EvStep]))
  = fst (evaluate (T := Toy.torch) Toy.val_loader (Toy.runtime0 1)).
Proof.
  apply (evaluate_depends_on_parameters (T := Toy.torch) Toy.val_loader
           (mkRuntime (H := Toy.torch) 1%Z true (Some 5%Z) 7%nat 3%nat [EvStep])
           (Toy.runtime0 1)); reflexivity.
Defined.

(** ** More on the epoch loop *)


(** X12.  After a run of the epoch loop that reaches its end, the
    accumulator is the largest of zero and the validation accuracies
    printed: it is not negative, no printed accuracy exceeds it, and it is
    zero or one of them. *)
Theorem best_accuracy_is_maximum `{T : Torch} (train_loader val_loader : DataLoader)
    (n : nat) (p p' : Process) :
  journal p = [] ->
  main_epochs train_loader val_loader n p = (inr tt, p') ->
  let accs := val_accuracies (journal p') in
  best_accuracy p' = running_best 0 accs
  /\ 0 <= best_accuracy p'
  /\ (forall a, In a accs -> a <= best_accuracy p')
  /\ (best_accuracy p' = 0 \/ In (best_accuracy p') accs).
Proof.
  intros Hj Hrun accs. subst accs.
  unfold main_epochs, Py.bind, set_best_accuracy, Py.modify in Hrun.
  apply for_range_returns_best in Hrun.
  destruct Hrun as (obs & _ & Hj' & _ & Hbest).
  cbn [journal best_accuracy] in Hj', Hbest.
  rewrite Hj in Hj'. cbn [app] in Hj'.
  rewrite Hj', policy_val_accuracies, Hbest.
  split; [reflexivity|]. split; [apply running_best_ge|].
  split; [intros a Ha; apply running_best_bounds, Ha|].
  apply running_best_attained.
Qed.

Lemma best_accuracy_is_maximum_witness :
  best_accuracy (snd Toy.run3)
  = running_best 0 (val_accuracies (journal (snd Toy.run3)))
  /\ (forall a, In a (val_accuracies (journal (snd Toy.run3))) ->
        a <= best_accuracy (snd Toy.run3)).
Proof.
  assert (Hrun : main_epochs (T := Toy.torch) Toy.train_loader Toy.val_loader 3
                   (Toy.process0 (-2) []) = (inr tt, snd Toy.run3))
    by (vm_compute; reflexivity).
  pose proof (best_accuracy_is_maximum (T := Toy.torch) Toy.train_loader
                Toy.val_loader 3 (Toy.process0 (-2) []) (snd Toy.run3)
                eq_refl Hrun) as (Hb & _ & Hall & _).
  split; [exact Hb | exact Hall].
Defined.





(** X15.  Offered the same validation accuracy twice, the policy writes
    at most once: after a call that returned, a second call with the same
    accuracy returns and changes nothing. *)
Theorem checkpoint_policy_idempotent `{T : Torch} (v : Q) (p p1 : Process) :
  checkpoint_policy v p = (inr tt, p1) ->
  checkpoint_policy v p1 = (inr tt, p1).
Proof.
  intros H. apply checkpoint_policy_returns in H.
  assert (Hle : v <= best_accuracy p1).
  { destruct H as [[_ ->] | [Hle ->]]; [apply Qle_refl | exact Hle]. }
  destruct p1 as [rt best file faults j].
  unfold checkpoint_policy, Py.bind, Py.gets, Py.ret.
  cbn [best_accuracy] in *.
  destruct (Qlt_le_dec best v) as [Hlt | _]; [|reflexivity].
  exfalso. exact (Qlt_not_le _ _ Hlt Hle).
Qed.

Lemma checkpoint_policy_idempotent_witness :
  checkpoint_policy (T := Toy.torch) (1 # 2)
    (snd (checkpoint_policy (T := Toy.torch) (1 # 2) (Toy.process0 0 [])))
  = (inr tt, snd (checkpoint_policy (T := Toy.torch) (1 # 2) (Toy.process0 0 []))).
Proof.
  apply (checkpoint_policy_idempotent (T := Toy.torch) (1 # 2) (Toy.process0 0 [])).
  reflexivity.
Defined.

(** X16.  What an epoch that reaches its end does to the model and the
    optimizer is what [train] does, followed by one step of the schedule:
    the evaluation, the printing and the checkpoint leave the parameters
    and the optimizer alone, the schedule advances once per epoch and not
    once per batch, and the model is left in evaluation mode. *)
Theorem epoch_effect `{T : Torch} (train_loader val_loader : DataLoader)
    (p p' : Process) :
  epoch_body train_loader val_loader p = (inr tt, p') ->
  params (runtime p') = params (snd (train train_loader (runtime p)))
  /\ opt_state (runtime p')
     = schedule (opt_state (snd (train train_loader (runtime p))))
  /\ training (runtime p') = false.
Proof.
  destruct p as [rt best file faults j].
  unfold epoch_body. unfold Py.bind at 1. unfold in_runtime at 1.
  cbn [runtime best_accuracy best_model_pt storage_faults journal].
  destruct (train train_loader rt) as [[e|tr] rt1]; [discriminate|].
  unfold Py.bind at 1. unfold in_runtime at 1.
  cbn [runtime best_accuracy best_model_pt storage_faults journal].
  destruct (evaluate_frame val_loader rt1) as (t2 & Hrt2).
  destruct (evaluate val_loader rt1) as [[e|ev] rt2]; [discriminate|].
  cbn [snd] in Hrt2. subst rt2.
  unfold Py.bind at 1. unfold in_runtime at 1, scheduler_step, Py.modify.
  cbn [runtime best_accuracy best_model_pt storage_faults journal
       params training grads opt_state rng trace].
  unfold Py.bind at 1. unfold print_metrics, Py.modify.
  cbn [runtime best_accuracy best_model_pt storage_faults journal].
  intros Hc. apply checkpoint_policy_returns in Hc.
  cbn [snd]. destruct Hc as [[_ ->] | [_ ->]];
    cbn [runtime params opt_state training]; auto.
Qed.

Lemma epoch_effect_witness :
  params (runtime (snd (epoch_body (T := Toy.torch) Toy.train_loader Toy.val_loader
                          (Toy.process0 0 []))))
  = params (snd (train (T := Toy.torch) Toy.train_loader (Toy.runtime0 0)))
  /\ training (runtime (snd (epoch_body (T := Toy.torch) Toy.train_loader
                               Toy.val_loader (Toy.process0 0 [])))) = false.
Proof.
  assert (Hrun : epoch_body (T := Toy.torch) Toy.train_loader Toy.val_loader
                   (Toy.process0 0 [])
                 = (inr tt, snd (epoch_body (T := Toy.torch) Toy.train_loader
                                   Toy.val_loader (Toy.process0 0 []))))
    by (vm_compute; reflexivity).
  pose proof (epoch_effect (T := Toy.torch) Toy.train_loader Toy.val_loader
                (Toy.process0 0 []) _ Hrun) as (Hp & _ & Hm).
  split; [exact Hp | exact Hm].
Defined.

(** ** More on the convolutional head *)

Lemma traverse_fails {A B} (f : A -> option B) (l : list A) (a : A) :
  In a l -> f a = None -> Shape.traverse f l = None.
Proof.
  induction l as [|x l IH]; intros Hin Hf; [destruct Hin|].
  cbn [Shape.traverse]. destruct Hin as [-> | Hin].
  - rewrite Hf. reflexivity.
  - destruct (f x); [|reflexivity]. cbn [Shape.obind].
    rewrite (IH Hin Hf). reflexivity.
Qed.

(** X17.  The condition on the filter sizes is the exact one: on a batch
    the encoder accepts, a single filter size larger than the sequence
    length is enough for the convolutional head to return no logits,
    whatever the other filter sizes are. *)
Theorem cnn_filter_too_wide `{E : Shape.Encoder} (m : Shape.BertCNN) (b l k : nat) :
  Shape.bert [b; l] [b; l]
    = Some ([b; l; Shape.hidden_size], [b; Shape.hidden_size]) ->
  In k (Shape.cnn_filter_sizes m) -> (l < k)%nat ->
  Shape.BertCNN_forward m [b; l] [b; l] = None.
Proof.
  intros Hb Hin Hk. unfold Shape.BertCNN_forward. rewrite Hb.
  cbn [Shape.obind fst Shape.unsqueeze1].
  rewrite (traverse_fails _ _ k Hin); [reflexivity|].
  unfold Shape.conv2d.
  destruct (Nat.leb_spec k l) as [Hle | _]; [lia|].
  rewrite !andb_false_r. cbn [andb]. rewrite ?andb_false_r. reflexivity.
Qed.

Lemma cnn_filter_too_wide_witness :
  Shape.BertCNN_forward (E := Toy.encoder) Shape.BertCNN_default [32; 4]%nat
    [32; 4]%nat = None.
Proof.
  apply (cnn_filter_too_wide (E := Toy.encoder) Shape.BertCNN_default 32 4 5).
  - reflexivity.
  - simpl. auto.
  - lia.
Defined.
